(** * Pet-product recommendation tool: filtering, normalisation and loaders

    A shallow embedding of the logic of

    - [src/App.tsx]                    (product loader, filter effect),
    - [src/components/FilterPanel.tsx] (special-care loader, filter form),
    - the product card helpers         (display normalisers),
    - [src/types/product.ts]           (the data model),

    followed by the properties proved about it.

    Modelling conventions.

    - JavaScript strings are [string]s.  The engine's case mapping and
      white space are modelled on ASCII strings ([ascii_only]): there
      [toLowerCase], [toUpperCase] and [trim] are the engine's functions.
      They say nothing about what the engine does with other characters,
      and a statement that depends on case mapping or trimming is made for
      ASCII strings, by a hypothesis [ascii_only s = true].  Comparison,
      search, splitting and slicing work on any string.
    - Values that reach the program from JSON are terms of [value].
      Numbers are the integers; [NumberToString] is the engine's rendering
      on the safe integers ([safe_integer]), and a statement that depends
      on the rendering of a number is made for those.  An object is the
      list of its own properties in enumeration order, without repeated
      keys.
    - A computation that may throw returns a [result]; a computation that
      also reads or writes component state or talks to the network lives in
      the monad [M], whose state survives a throw as it does in JavaScript.
    - A run of an [async] function is modelled without interleaving of
      other events. *)

From Stdlib Require Import String Ascii List Bool Arith ZArith Lia.
From Stdlib Require Import Numbers.DecimalString.
Import ListNotations.

Local Open Scope string_scope.
Local Open Scope list_scope.

(* ===================================================================== *)
(** * Strings *)
(* ===================================================================== *)

(** The ASCII strings: every character is below 128.  On these the case
    mapping and the white space of the engine are the ones defined here. *)
Definition is_ascii_char (c : ascii) : bool := (nat_of_ascii c <? 128)%nat.

Fixpoint ascii_only (s : string) : bool :=
  match s with
  | EmptyString => true
  | String c s' => is_ascii_char c && ascii_only s'
  end.

Definition is_upper (c : ascii) : bool :=
  (65 <=? nat_of_ascii c)%nat && (nat_of_ascii c <=? 90)%nat.

Definition is_lower (c : ascii) : bool :=
  (97 <=? nat_of_ascii c)%nat && (nat_of_ascii c <=? 122)%nat.

Definition lower_char (c : ascii) : ascii :=
  if is_upper c then ascii_of_nat (nat_of_ascii c + 32) else c.

Definition upper_char (c : ascii) : ascii :=
  if is_lower c then ascii_of_nat (nat_of_ascii c - 32) else c.

(** [String.prototype.toLowerCase] on an ASCII string: [A-Z] go to
    [a-z], nothing else moves. *)
Fixpoint toLowerCase (s : string) : string :=
  match s with
  | EmptyString => EmptyString
  | String c s' => String (lower_char c) (toLowerCase s')
  end.

(** [String.prototype.toUpperCase] on an ASCII string: [a-z] go to
    [A-Z], nothing else moves. *)
Fixpoint toUpperCase (s : string) : string :=
  match s with
  | EmptyString => EmptyString
  | String c s' => String (upper_char c) (toUpperCase s')
  end.

(** [s.charAt(0)]: the first character as a string, empty when there is
    none. *)
Definition charAt0 (s : string) : string :=
  match s with
  | EmptyString => EmptyString
  | String c _ => String c EmptyString
  end.

(** [s.slice(1)] *)
Definition slice1 (s : string) : string :=
  match s with
  | EmptyString => EmptyString
  | String _ s' => s'
  end.

(** [t] is found at position 0 of [s]. *)
Fixpoint starts_with (t s : string) : bool :=
  match t with
  | EmptyString => true
  | String a t' =>
      match s with
      | EmptyString => false
      | String b s' => (a =? b)%char && starts_with t' s'
      end
  end.

(** [s.includes(t)]: [t] is found at some position of [s]. *)
Fixpoint includes (s t : string) : bool :=
  starts_with t s ||
  match s with
  | EmptyString => false
  | String _ s' => includes s' t
  end.

(** The white space and line terminators of the ASCII range: TAB, LF,
    VT, FF, CR and SPACE. *)
Definition is_white_space (c : ascii) : bool :=
  let n := nat_of_ascii c in
  ((9 <=? n)%nat && (n <=? 13)%nat) || (n =? 32)%nat.

Fixpoint trimStart (s : string) : string :=
  match s with
  | EmptyString => EmptyString
  | String c s' => if is_white_space c then trimStart s' else s
  end.

Fixpoint trimEnd (s : string) : string :=
  match s with
  | EmptyString => EmptyString
  | String c s' =>
      let t := trimEnd s' in
      if is_white_space c && (t =? "") then EmptyString else String c t
  end.

(** [String.prototype.trim] on an ASCII string. *)
Definition trim (s : string) : string := trimEnd (trimStart s).

(** The character class [[\n;,]] of the benefits separator. *)
Definition is_separator (c : ascii) : bool :=
  (c =? "010")%char || (c =? ";")%char || (c =? ",")%char.

(** [s.split(/[\n;,]+/)].  The expression cannot match the empty string,
    so the pieces are the maximal separator-free stretches of [s],
    including an empty first piece when [s] starts with a separator and an
    empty last piece when it ends with one; the empty string gives one
    empty piece.  [in_sep] tells that the previous character belonged to a
    run of separators already consumed; the head of the result is the
    piece being read. *)
Fixpoint split_from (in_sep : bool) (s : string) : list string :=
  match s with
  | EmptyString => [EmptyString]
  | String c s' =>
      if is_separator c then
        if in_sep then split_from true s'
        else EmptyString :: split_from true s'
      else
        match split_from false s' with
        | p :: ps => String c p :: ps
        | [] => [String c EmptyString]
        end
  end.

Definition split_separators (s : string) : list string := split_from false s.

(** [Boolean(s)] for a string: non-empty. *)
Definition nonempty (s : string) : bool := negb (s =? "").

(** The integers every JavaScript number represents exactly and renders
    in plain decimal: up to [Number.MAX_SAFE_INTEGER] in absolute value. *)
Definition safe_integer (n : Z) : bool :=
  (Z.abs n <=? 9007199254740991)%Z.

(** [String(n)] for a safe integer: its decimal expansion. *)
Definition NumberToString (n : Z) : string :=
  NilZero.string_of_int (Z.to_int n).

Definition index_key (i : nat) : string :=
  NilZero.string_of_uint (Nat.to_uint i).

(** [xs.join(",")] on strings already converted. *)
Fixpoint join_comma (xs : list string) : string :=
  match xs with
  | [] => ""
  | [x] => x
  | x :: rest => x ++ "," ++ join_comma rest
  end.

(* ===================================================================== *)
(** * Errors and results *)
(* ===================================================================== *)

(** Error objects.  The text of an engine-made [TypeError] or
    [SyntaxError] is the engine's; nothing below depends on it. *)
Inductive error : Type :=
| Error (msg : string)
| TypeError (msg : string)
| SyntaxError (msg : string).

Definition message (e : error) : string :=
  match e with
  | Error m | TypeError m | SyntaxError m => m
  end.

Inductive result (A : Type) : Type :=
| OK (a : A)
| Throw (e : error).

Arguments OK {A} a.
Arguments Throw {A} e.

Definition rbind {A B} (r : result A) (k : A -> result B) : result B :=
  match r with
  | OK a => k a
  | Throw e => Throw e
  end.

Declare Scope result_scope.
Delimit Scope result_scope with result.
Notation "x <- c ;; k" := (rbind c (fun x => k))
  (at level 100, c at next level, right associativity) : result_scope.

(** [xs.map(f)] with a callback that may throw: left to right, the first
    throw ends the walk. *)
Fixpoint mapR {A B} (f : A -> result B) (xs : list A) : result (list B) :=
  match xs with
  | [] => OK []
  | x :: rest =>
      (y <- f x ;;
       ys <- mapR f rest ;;
       OK (y :: ys))%result
  end.

(* ===================================================================== *)
(** * JavaScript values *)
(* ===================================================================== *)

#[local] Set Warnings "-register-all".

Inductive value : Type :=
| VUndefined
| VNull
| VBool (b : bool)
| VNum (n : Z)
| VStr (s : string)
| VArr (elems : list value)
| VObj (props : list (string * value)).

Definition obj : Type := list (string * value).

(** [Boolean(v)] *)
Definition truthy (v : value) : bool :=
  match v with
  | VUndefined | VNull => false
  | VBool b => b
  | VNum n => negb (n =? 0)%Z
  | VStr s => nonempty s
  | VArr _ | VObj _ => true
  end.

Definition nullish (v : value) : bool :=
  match v with
  | VUndefined | VNull => true
  | _ => false
  end.

(** [a || b] *)
Definition js_or (a b : value) : value := if truthy a then a else b.

(** [a ?? b] *)
Definition js_coalesce (a b : value) : value := if nullish a then b else a.

(** [v === s] for a string [s]. *)
Definition strict_eq_str (v : value) (s : string) : bool :=
  match v with
  | VStr t => (t =? s)
  | _ => false
  end.

(** Own property [k] of an object, [undefined] when there is none. *)
Fixpoint get (k : string) (o : obj) : value :=
  match o with
  | [] => VUndefined
  | (k', v) :: rest => if (k' =? k) then v else get k rest
  end.

Fixpoint has (k : string) (o : obj) : bool :=
  match o with
  | [] => false
  | (k', _) :: rest => (k' =? k) || has k rest
  end.

(** Writing property [k]: an existing property keeps its place, a new
    one goes last. *)
Fixpoint set (k : string) (v : value) (o : obj) : obj :=
  match o with
  | [] => [(k, v)]
  | (k', v') :: rest =>
      if (k' =? k) then (k, v) :: rest else (k', v') :: set k v rest
  end.

(** [v.k] for one of the property names the program reads ([id], [name],
    [type], [lifeStages], [specialcares], [specialcare_id],
    [specialcare_name], [message]); none of them is defined on a built-in
    prototype, so only objects answer with something else than
    [undefined]. *)
Definition prop (v : value) (k : string) : result value :=
  match v with
  | VUndefined => Throw (TypeError "Cannot read properties of undefined")
  | VNull => Throw (TypeError "Cannot read properties of null")
  | VObj o => OK (get k o)
  | _ => OK VUndefined
  end.

(** [v?.k] *)
Definition opt_prop (v : value) (k : string) : value :=
  match v with
  | VObj o => get k o
  | _ => VUndefined
  end.

Definition chars (s : string) : list value :=
  map (fun c => VStr (String c EmptyString)) (list_ascii_of_string s).

(** [v?.[0]] *)
Definition opt_index0 (v : value) : value :=
  match v with
  | VArr l => nth 0 l VUndefined
  | VStr s => nth 0 (chars s) VUndefined
  | VObj o => get "0" o
  | _ => VUndefined
  end.

Definition values (o : obj) : list value := map snd o.

(** [Object.values(v)] *)
Definition Object_values (v : value) : result (list value) :=
  match v with
  | VUndefined | VNull =>
      Throw (TypeError "Cannot convert undefined or null to object")
  | VObj o => OK (values o)
  | VArr l => OK l
  | VStr s => OK (chars s)
  | VBool _ | VNum _ => OK []
  end.

Fixpoint indexed (i : nat) (xs : list value) : obj :=
  match xs with
  | [] => []
  | x :: rest => (index_key i, x) :: indexed (S i) rest
  end.

(** [{...v}]: the own enumerable properties of [v]. *)
Definition spread (v : value) : obj :=
  match v with
  | VObj o => o
  | VArr l => indexed 0 l
  | VStr s => indexed 0 (chars s)
  | _ => []
  end.

(** [String(v)].  An array joins the conversions of its elements with
    commas, [null] and [undefined] elements giving nothing.  A plain
    object gives ["[object Object]"], unless an own property [toString]
    hides the inherited method: JSON data is never callable, and the
    conversion then throws. *)
Fixpoint ToString (v : value) : result string :=
  match v with
  | VUndefined => OK "undefined"
  | VNull => OK "null"
  | VBool true => OK "true"
  | VBool false => OK "false"
  | VNum n => OK (NumberToString n)
  | VStr s => OK s
  | VArr l =>
      (parts <- (fix conv (xs : list value) : result (list string) :=
                   match xs with
                   | [] => OK []
                   | x :: rest =>
                       (s <- (if nullish x then OK "" else ToString x) ;;
                        ss <- conv rest ;;
                        OK (s :: ss))
                   end) l ;;
       OK (join_comma parts))%result
  | VObj o =>
      if has "toString" o
      then Throw (TypeError "Cannot convert object to primitive value")
      else OK "[object Object]"
  end.

(* ===================================================================== *)
(** * Data model ([src/types/product.ts]) *)
(* ===================================================================== *)

(** A product is an object; its fields are read with [get].  The fields
    the interface declares are [id], [name], [description], [image],
    [img], [img_thumbnail], [productType], [type], [petType],
    [forPregnant], [forLactating], [lifeStage], [benefits] and
    [specialcares]. *)
Definition Product : Type := obj.

Record FilterState : Type := mkFilterState {
  foodType : string;
  petType : string;
  isPregnant : bool;
  isLactating : bool;
  lifeStage : string;
  specialCare : list string;
  searchTerm : string
}.

Definition initialFilters : FilterState :=
  {| foodType := "dry";
     petType := "dog";
     isPregnant := false;
     isLactating := false;
     lifeStage := "";
     specialCare := [];
     searchTerm := "" |}.

(** ** Conformance to the declared interfaces *)

Definition opt_string (v : value) : bool :=
  match v with VUndefined | VStr _ => true | _ => false end.

Definition opt_boolean (v : value) : bool :=
  match v with VUndefined | VBool _ => true | _ => false end.

Definition is_string (v : value) : bool :=
  match v with VStr _ => true | _ => false end.

Definition opt_one_of (allowed : list string) (v : value) : bool :=
  match v with
  | VUndefined => true
  | VStr s => existsb (String.eqb s) allowed
  | _ => false
  end.

(** [SpecialCareItem]: an object with a string [id] and a string [name]. *)
Definition is_SpecialCareItem (v : value) : bool :=
  match v with
  | VObj o => is_string (get "id" o) && is_string (get "name" o)
  | _ => false
  end.

(** [SpecialCareItem[] | Record<string, SpecialCareItem>], optional. *)
Definition is_specialcares (v : value) : bool :=
  match v with
  | VUndefined => true
  | VArr l => forallb is_SpecialCareItem l
  | VObj o => forallb is_SpecialCareItem (values o)
  | _ => false
  end.

(** [string | string[]], optional. *)
Definition is_benefits (v : value) : bool :=
  match v with
  | VUndefined | VStr _ => true
  | VArr l => forallb is_string l
  | _ => false
  end.

(** The interface [Product]. *)
Definition is_Product (p : Product) : bool :=
  (match get "id" p with VUndefined | VStr _ | VNum _ => true | _ => false end)
  && is_string (get "name" p)
  && opt_string (get "description" p)
  && opt_string (get "image" p)
  && opt_string (get "img" p)
  && opt_string (get "img_thumbnail" p)
  && opt_one_of ["dry"; "wet"] (get "productType" p)
  && opt_string (get "type" p)
  && opt_one_of ["dog"; "cat"] (get "petType" p)
  && opt_boolean (get "forPregnant" p)
  && opt_boolean (get "forLactating" p)
  && opt_string (get "lifeStage" p)
  && is_benefits (get "benefits" p)
  && is_specialcares (get "specialcares" p).

(* ===================================================================== *)
(** * Display normalisers (product card) *)
(* ===================================================================== *)

(** [benefits.split(/[\n;,]+/).map(b => b.trim()).filter(Boolean).slice(0, 3)] *)
Definition split_benefits (benefits : string) : list string :=
  firstn 3 (filter nonempty (map trim (split_separators benefits))).

Definition getNormalizedBenefits (benefits : value) : list value :=
  match benefits with
  | VArr l => firstn 3 l
  | VStr s =>
      if (0 <? String.length (trim s))%nat
      then map VStr (split_benefits s)
      else []
  | _ => []
  end.

Definition getImageSource (product : Product) : value :=
  js_or (get "img" product) (VStr "").

(** [lifeStage.toLowerCase()] and the other string methods exist on
    strings only; a truthy value of another kind makes the call throw. *)
Definition getLifeStageLabel (lifeStage : value) : result string :=
  if negb (truthy lifeStage) then OK "-"
  else
    match lifeStage with
    | VStr s =>
        let l := toLowerCase s in
        if l =? "puppy-kitten" then OK "Puppy/Kitten"
        else if l =? "adult" then OK "Adult"
        else if l =? "senior" then OK "Senior"
        else OK (toUpperCase (charAt0 s) ++ slice1 s)%string
    | _ => Throw (TypeError "lifeStage.toLowerCase is not a function")
    end.

Definition getProductTypeLabel (productType fallbackType : value) : string :=
  let typeToProcess := js_or productType fallbackType in
  if strict_eq_str typeToProcess "dry" then "Dry"
  else if strict_eq_str typeToProcess "wet" then "Wet"
  else "Other".

Definition getPetTypeLabel (petType fallbackType : value) : string :=
  let typeToProcess := js_or petType fallbackType in
  if strict_eq_str typeToProcess "dog" then "Dog"
  else if strict_eq_str typeToProcess "cat" then "Cat"
  else "-".

Definition getNormalizedSpecialCares (specialcares : value) : list value :=
  if negb (truthy specialcares) then []
  else
    match specialcares with
    | VArr l => l
    | VObj o => values o
    | _ => []
    end.

(** What the card puts in the image slot: the picture when [imgSrc] is
    truthy, the "No Image" box otherwise. *)
Inductive image_slot : Type :=
| Picture (src : value)
| NoImage.

Definition render_image (product : Product) : image_slot :=
  let imgSrc := getImageSource product in
  if truthy imgSrc then Picture imgSrc else NoImage.

(** The card of a product, as [ProductCard] lays it out: image slot,
    title, the two type badges, the description when there is one, the
    life-stage badge unless the label is "-", the "Special For" badges,
    the benefit badges and one badge per special care, carrying its
    [name].  What React then does with the values placed in the badges is
    outside the model. *)
Record card : Type := mkCard {
  card_image : image_slot;
  card_title : value;
  card_productType : string;
  card_petType : string;
  card_description : option value;
  card_lifeStage : option string;
  card_specialFor : list string;
  card_benefits : list value;
  card_cares : list value
}.

Definition ProductCard (product : Product) : result card :=
  (let name := get "name" product in
   let description := get "description" product in
   let productType := get "productType" product in
   let type := get "type" product in
   let petType := get "petType" product in
   let lifeStage := get "lifeStage" product in
   let rawBenefits := get "benefits" product in
   let rawSpecialCares := get "specialcares" product in
   let forPregnant := get "forPregnant" product in
   let forLactating := get "forLactating" product in
   let displayBenefits := getNormalizedBenefits rawBenefits in
   displayLifeStage <- getLifeStageLabel lifeStage ;;
   let displayProductType := getProductTypeLabel productType type in
   let displayPetType := getPetTypeLabel petType type in
   let displaySpecialCares := getNormalizedSpecialCares rawSpecialCares in
   cares <- mapR (fun care => _ <- prop care "id" ;; prop care "name")
                 displaySpecialCares ;;
   OK (mkCard
         (render_image product)
         name
         displayProductType
         displayPetType
         (if truthy description then Some description else None)
         (if displayLifeStage =? "-" then None else Some displayLifeStage)
         (if truthy forPregnant || truthy forLactating
          then (if truthy forPregnant then ["Pregnant"] else [])
               ++ (if truthy forLactating then ["Lactating"] else [])
          else [])
         displayBenefits
         cares))%result.

(* ===================================================================== *)
(** * Filter predicate ([src/App.tsx], the callback of [products.filter]) *)
(* ===================================================================== *)

(** [product.name.toLowerCase()] *)
Definition name_toLowerCase (product : Product) : result string :=
  match get "name" product with
  | VStr s => OK (toLowerCase s)
  | VUndefined => Throw (TypeError "Cannot read properties of undefined")
  | VNull => Throw (TypeError "Cannot read properties of null")
  | _ => Throw (TypeError "product.name.toLowerCase is not a function")
  end.

(** [productCareIds.includes(filterCareId)] *)
Definition includes_id (productCareIds : list value) (filterCareId : string) : bool :=
  existsb (fun v => strict_eq_str v filterCareId) productCareIds.

(** The ids of the product's special cares, as the predicate collects
    them. *)
Definition productCareIds_of (product : Product) : result (list value) :=
  match get "specialcares" product with
  | VArr l => mapR (fun sc => prop sc "id") l
  | VObj o => mapR (fun sc => prop sc "id") (values o)
  | _ => OK []
  end.

Definition matches (product : Product) (filters : FilterState) : result bool :=
  (miss <- (if nonempty (searchTerm filters)
            then (n <- name_toLowerCase product ;;
                  OK (negb (includes n (toLowerCase (searchTerm filters)))))
            else OK false) ;;
   if miss then OK false
   else if nonempty (petType filters)
           && negb (strict_eq_str (get "petType" product) (petType filters))
   then OK false
   else if nonempty (lifeStage filters)
           && negb (strict_eq_str (get "lifeStage" product) (lifeStage filters))
   then OK false
   else if isPregnant filters && negb (truthy (get "forPregnant" product))
   then OK false
   else if isLactating filters && negb (truthy (get "forLactating" product))
   then OK false
   else if (0 <? List.length (specialCare filters))%nat
   then (productCareIds <- productCareIds_of product ;;
         if negb (existsb (includes_id productCareIds) (specialCare filters))
         then OK false
         else OK true)
   else OK true)%result.

(** [products.filter(...)]: keeps, in order, the products for which the
    callback returns [true]; a throw of the callback ends the walk. *)
Fixpoint filterProducts (products : list Product) (filters : FilterState)
  : result (list Product) :=
  match products with
  | [] => OK []
  | product :: rest =>
      (keep <- matches product filters ;;
       kept <- filterProducts rest filters ;;
       OK (if keep then product :: kept else kept))%result
  end.

(* ===================================================================== *)
(** * Filter form state ([src/components/FilterPanel.tsx]) *)
(* ===================================================================== *)

(** [keyof FilterState] and the type [FilterState[K]] of each field. *)
Inductive key : Type :=
| K_foodType
| K_petType
| K_isPregnant
| K_isLactating
| K_lifeStage
| K_specialCare
| K_searchTerm.

Definition field (k : key) : Type :=
  match k with
  | K_isPregnant | K_isLactating => bool
  | K_specialCare => list string
  | K_foodType | K_petType | K_lifeStage | K_searchTerm => string
  end.

Definition with_specialCare (ids : list string) (f : FilterState) : FilterState :=
  mkFilterState (foodType f) (petType f) (isPregnant f) (isLactating f)
                (lifeStage f) ids (searchTerm f).

(** [{ ...prev, [key]: value }] *)
Definition assign (k : key) : field k -> FilterState -> FilterState :=
  match k as k0 return field k0 -> FilterState -> FilterState with
  | K_foodType => fun v f =>
      mkFilterState v (petType f) (isPregnant f) (isLactating f)
                    (lifeStage f) (specialCare f) (searchTerm f)
  | K_petType => fun v f =>
      mkFilterState (foodType f) v (isPregnant f) (isLactating f)
                    (lifeStage f) (specialCare f) (searchTerm f)
  | K_isPregnant => fun v f =>
      mkFilterState (foodType f) (petType f) v (isLactating f)
                    (lifeStage f) (specialCare f) (searchTerm f)
  | K_isLactating => fun v f =>
      mkFilterState (foodType f) (petType f) (isPregnant f) v
                    (lifeStage f) (specialCare f) (searchTerm f)
  | K_lifeStage => fun v f =>
      mkFilterState (foodType f) (petType f) (isPregnant f) (isLactating f)
                    v (specialCare f) (searchTerm f)
  | K_specialCare => fun v f => with_specialCare v f
  | K_searchTerm => fun v f =>
      mkFilterState (foodType f) (petType f) (isPregnant f) (isLactating f)
                    (lifeStage f) (specialCare f) v
  end.

(** [key === 'petType' && prev.petType !== value] *)
Definition petType_changes (k : key) : field k -> FilterState -> bool :=
  match k as k0 return field k0 -> FilterState -> bool with
  | K_petType => fun v prev => negb (petType prev =? v)
  | _ => fun _ _ => false
  end.

(** The updater that [updateFilter(key, value)] hands to
    [setInternalFilters]. *)
Definition updateFilter (k : key) (v : field k) (prev : FilterState) : FilterState :=
  let newState := assign k v prev in
  if petType_changes k v prev then with_specialCare [] newState else newState.

(** The updater of [toggleSpecialCare(careId)]. *)
Definition toggleSpecialCare (careId : string) (prev : FilterState) : FilterState :=
  with_specialCare
    (if existsb (String.eqb careId) (specialCare prev)
     then filter (fun id => negb (id =? careId)) (specialCare prev)
     else specialCare prev ++ [careId])
    prev.

(** The update operations of the form. *)
Inductive update : Type :=
| UpdateFilter (k : key) (v : field k)
| ToggleSpecialCare (careId : string).

Definition apply_update (u : update) (prev : FilterState) : FilterState :=
  match u with
  | UpdateFilter k v => updateFilter k v prev
  | ToggleSpecialCare careId => toggleSpecialCare careId prev
  end.

(* ===================================================================== *)
(** * Effects: component state, network, exceptions *)
(* ===================================================================== *)

Record request : Type := mkRequest {
  url : string;
  payload : obj
}.

(** What [response.json()] finds in the body. *)
Inductive body : Type :=
| InvalidJson (msg : string)
| Json (v : value).

(** What a [fetch] settles to: a rejection (transport failure) or a
    response with a status and a body. *)
Inductive fetched : Type :=
| Rejected (msg : string)
| Response (status : Z) (b : body).

(** [response.ok] *)
Definition ok_status (status : Z) : bool :=
  (200 <=? status)%Z && (status <=? 299)%Z.

(** The world of a component: its state [ui], the requests issued so
    far and what went to [console.error]. *)
Record World (S : Type) : Type := mkWorld {
  ui : S;
  requests : list request;
  console : list error
}.

Arguments mkWorld {S} ui requests console.
Arguments ui {S} w.
Arguments requests {S} w.
Arguments console {S} w.

Definition M (S A : Type) : Type := World S -> result A * World S.

Definition ret {S A} (a : A) : M S A := fun w => (OK a, w).

Definition throw {S A} (e : error) : M S A := fun w => (Throw e, w).

Definition bind {S A B} (m : M S A) (k : A -> M S B) : M S B :=
  fun w =>
    match m w with
    | (OK a, w') => k a w'
    | (Throw e, w') => (Throw e, w')
    end.

(** A computation without effects ([await] of an already settled step). *)
Definition lift {S A} (r : result A) : M S A := fun w => (r, w).

(** [try { m } catch (e) { h e }] *)
Definition try_catch {S A} (m : M S A) (h : error -> M S A) : M S A :=
  fun w =>
    match m w with
    | (OK a, w') => (OK a, w')
    | (Throw e, w') => h e w'
    end.

(** [try { m } finally { f }]: [f] runs however [m] ends; the outcome is
    that of [m] unless [f] itself throws. *)
Definition try_finally {S A} (m : M S A) (f : M S unit) : M S A :=
  fun w =>
    match m w with
    | (r, w') =>
        match f w' with
        | (OK _, w'') => (r, w'')
        | (Throw e, w'') => (Throw e, w'')
        end
    end.

(** A state setter of the component. *)
Definition modify {S} (f : S -> S) : M S unit :=
  fun w => (OK tt, mkWorld (f (ui w)) (requests w) (console w)).

Definition console_error {S} (e : error) : M S unit :=
  fun w => (OK tt, mkWorld (ui w) (requests w) (console w ++ [e])).

Declare Scope monad_scope.
Delimit Scope monad_scope with monad.
Notation "x <- c ;; k" := (bind c (fun x => k))
  (at level 100, c at next level, right associativity) : monad_scope.
Notation "c ;;; k" := (bind c (fun _ => k))
  (at level 100, right associativity) : monad_scope.

(** [response.json()] *)
Definition json (b : body) : result value :=
  match b with
  | InvalidJson msg => Throw (SyntaxError msg)
  | Json v => OK v
  end.

Section Network.

(** The remote service: [net n] is what the [n]-th request of the
    session (counting from 0) settles to. *)
Variable net : nat -> fetched.

(** [await fetch(url, { method: "POST", ..., body })]: the request goes
    out; a rejection arrives as a thrown [TypeError]. *)
Definition fetch {S} (req : request) : M S (Z * body) :=
  fun w =>
    let w' := mkWorld (ui w) (requests w ++ [req]) (console w) in
    match net (List.length (requests w)) with
    | Rejected msg => (Throw (TypeError msg), w')
    | Response status b => (OK (status, b), w')
    end.

(* =================================================================== *)
(** ** Special-care option loader *)
(* =================================================================== *)

Definition specialcares_request (petType : string) : request :=
  mkRequest "https://gw-c.petgenius.info/wfservice/z1/specialcares/list"
    [("species", VStr petType); ("country", VStr "MA");
     ("languageId", VStr "1"); ("type", VStr "dietetic")].

(** [{ id: item.specialcare_id, name: item.specialcare_name }] *)
Definition toOption (item : value) : result value :=
  (id <- prop item "specialcare_id" ;;
   name <- prop item "specialcare_name" ;;
   OK (VObj [("id", id); ("name", name)]))%result.

(** [json?.result?.[0]?.specialcares?.[0]?.list] *)
Definition nested_list (data : value) : value :=
  opt_prop (opt_index0 (opt_prop (opt_index0 (opt_prop data "result"))
                                 "specialcares")) "list".

Definition fetchSpecialCareOptionsApi {S} (petType : string) : M S (list value) :=
  if negb (nonempty petType) then ret []
  else
    try_catch
      (response <- fetch (specialcares_request petType) ;;
       let '(status, b) := response in
       if negb (ok_status status) then
         (errorData <- try_catch (lift (json b))
                         (fun _ => ret (VObj [("message", VStr "API request failed")])) ;;
          m <- lift (prop errorData "message") ;;
          text <- lift (ToString
                          (js_or m (VStr ("Request failed with status "
                                          ++ NumberToString status)%string))) ;;
          throw (Error text))
       else
         (data <- lift (json b) ;;
          let list := nested_list data in
          match list with
          | VArr items => lift (mapR toOption items)
          | _ => ret []
          end))%monad
      (fun e => (console_error e ;;; throw e)%monad).

Record PanelState : Type := mkPanelState {
  internalFilters : FilterState;
  specialCareOptions : list value;
  isLoadingSpecialCare : bool;
  errorSpecialCare : option string
}.

Definition setSpecialCareOptions (options : list value) : M PanelState unit :=
  modify (fun st => mkPanelState (internalFilters st) options
                      (isLoadingSpecialCare st) (errorSpecialCare st)).

Definition setIsLoadingSpecialCare (b : bool) : M PanelState unit :=
  modify (fun st => mkPanelState (internalFilters st) (specialCareOptions st)
                      b (errorSpecialCare st)).

Definition setErrorSpecialCare (e : option string) : M PanelState unit :=
  modify (fun st => mkPanelState (internalFilters st) (specialCareOptions st)
                      (isLoadingSpecialCare st) e).

Definition setInternalFilters (f : FilterState -> FilterState) : M PanelState unit :=
  modify (fun st => mkPanelState (f (internalFilters st)) (specialCareOptions st)
                      (isLoadingSpecialCare st) (errorSpecialCare st)).

(** [err.message || 'Failed to load options'] *)
Definition error_text (err : error) : string :=
  if nonempty (message err) then message err else "Failed to load options".

Definition loadOptions (petType : string) : M PanelState unit :=
  (setIsLoadingSpecialCare true ;;;
   setErrorSpecialCare None ;;;
   try_finally
     (try_catch
        (options <- fetchSpecialCareOptionsApi petType ;;
         setSpecialCareOptions options)
        (fun err => setErrorSpecialCare (Some (error_text err))))
     (setIsLoadingSpecialCare false))%monad.

(** The effect that runs when [internalFilters.petType] changes. *)
Definition specialCareEffect : M PanelState unit :=
  fun w =>
    let petType := petType (internalFilters (ui w)) in
    (if negb (nonempty petType)
     then setSpecialCareOptions []
     else loadOptions petType) w.

(** What the "Special Care Needs" box shows. *)
Inductive panel_line : Type :=
| LoadingLine
| ErrorLine (msg : string)
| NoneFoundLine
| OptionLine (opt : value).

Definition has_error (st : PanelState) : bool :=
  match errorSpecialCare st with
  | Some msg => nonempty msg
  | None => false
  end.

Definition render_specialCare (st : PanelState) : list panel_line :=
  (if isLoadingSpecialCare st then [LoadingLine] else [])
  ++ (match errorSpecialCare st with
      | Some msg => if nonempty msg then [ErrorLine msg] else []
      | None => []
      end)
  ++ (if negb (isLoadingSpecialCare st) && negb (has_error st)
         && (List.length (specialCareOptions st) =? 0)%nat
         && nonempty (petType (internalFilters st))
      then [NoneFoundLine] else [])
  ++ (if negb (isLoadingSpecialCare st) && negb (has_error st)
      then map OptionLine (specialCareOptions st) else []).

Definition rendered_options (st : PanelState) : list value :=
  flat_map (fun l => match l with OptionLine o => [o] | _ => [] end)
           (render_specialCare st).

(* =================================================================== *)
(** ** Product loader and filter effect ([src/App.tsx]) *)
(* =================================================================== *)

Record AppState : Type := mkAppState {
  filters : FilterState;
  products : list Product;
  searchResults : list Product;
  isLoading : bool;
  hasSearched : bool
}.

Definition setFilters (f : FilterState -> FilterState) : M AppState unit :=
  modify (fun st => mkAppState (f (filters st)) (products st) (searchResults st)
                      (isLoading st) (hasSearched st)).

Definition setProducts (ps : list Product) : M AppState unit :=
  modify (fun st => mkAppState (filters st) ps (searchResults st)
                      (isLoading st) (hasSearched st)).

Definition setSearchResults (ps : list Product) : M AppState unit :=
  modify (fun st => mkAppState (filters st) (products st) ps
                      (isLoading st) (hasSearched st)).

Definition setIsLoading (b : bool) : M AppState unit :=
  modify (fun st => mkAppState (filters st) (products st) (searchResults st)
                      b (hasSearched st)).

Definition setHasSearched (b : bool) : M AppState unit :=
  modify (fun st => mkAppState (filters st) (products st) (searchResults st)
                      (isLoading st) b).

Definition products_request (foodType : string) : request :=
  mkRequest "https://gw-c.petgenius.info/wfservice/z1/nutritionalplans/products/list"
    [("country", VStr "MA"); ("languageId", VStr "20"); ("productId", VStr "0");
     ("productType", VStr foodType); ("type", VStr ""); ("appsAndEshop", VBool true)].

(** The callback of [Object.values(productsObj).map(...)]. *)
Definition toProduct (foodType : string) (prod : value) : result Product :=
  (let base := spread prod in
   id <- prop prod "id" ;;
   idText <- ToString (js_coalesce id (VStr "")) ;;
   name <- prop prod "name" ;;
   type <- prop prod "type" ;;
   lifeStages <- prop prod "lifeStages" ;;
   stage <- (if truthy lifeStages
             then (stages <- Object_values lifeStages ;;
                   OK (js_coalesce (nth 0 stages VUndefined) (VStr "")))
             else OK (VStr "")) ;;
   specialcares <- prop prod "specialcares" ;;
   OK (set "specialcares" specialcares
      (set "lifeStage" stage
      (set "petType" (js_or type (VStr ""))
      (set "productType" (VStr foodType)
      (set "name" (js_or name (VStr "Unknown Product"))
      (set "id" (VStr idText) base)))))))%result.

Definition fetchProducts (foodType : string) : M AppState unit :=
  if negb (nonempty foodType) then setProducts []
  else
    (setIsLoading true ;;;
     try_finally
       (try_catch
          (response <- fetch (products_request foodType) ;;
           let '(status, b) := response in
           if negb (ok_status status) then throw (Error "")
           else
             (data <- lift (json b) ;;
              let productsObj :=
                js_or (opt_prop (opt_prop data "result") "products") (VObj []) in
              raw <- lift (Object_values productsObj) ;;
              productsArr <- lift (mapR (toProduct foodType) raw) ;;
              setProducts productsArr))
          (fun _ => setProducts []))
       (setIsLoading false ;;; setHasSearched true))%monad.

(** The effect that runs when [filters.foodType] changes. *)
Definition productsEffect : M AppState unit :=
  fun w => fetchProducts (foodType (filters (ui w))) w.

(** The effect that runs when [products] or [filters] change. *)
Definition filterEffect : M AppState unit :=
  fun w =>
    (results <- lift (filterProducts (products (ui w)) (filters (ui w))) ;;
     setSearchResults results)%monad w.

Definition any_filter (f : FilterState) : bool :=
  nonempty (foodType f) || nonempty (searchTerm f) || nonempty (petType f)
  || nonempty (lifeStage f) || isPregnant f || isLactating f
  || (0 <? List.length (specialCare f))%nat.

Definition handleFilters (newFilters : FilterState) : M AppState unit :=
  (setFilters (fun _ => newFilters) ;;;
   setHasSearched (any_filter newFilters))%monad.

Definition onSearchInputChange (text : string) : M AppState unit :=
  setFilters (fun prev =>
    mkFilterState (foodType prev) (petType prev) (isPregnant prev)
                  (isLactating prev) (lifeStage prev) (specialCare prev) text).

Definition resetFilters : M AppState unit :=
  (setFilters (fun _ => initialFilters) ;;;
   setHasSearched false ;;;
   if negb (nonempty (foodType initialFilters))
   then (setProducts [] ;;; setSearchResults [])
   else ret tt)%monad.

End Network.

(* ===================================================================== *)
(** * What the page shows ([src/App.tsx], the results column) *)
(* ===================================================================== *)

(** [const onSearch = () => setHasSearched(true)] *)
Definition onSearch : M AppState unit := setHasSearched true.

Inductive results_body : Type :=
| NoProductsFound
| ProductGrid (cards : list Product).

(** The blocks of the results column: the loading card, the invitation
    naming the food type, or the results with their count badge
    ("1 result found", "n results found"). *)
Inductive app_block : Type :=
| LoadingCard
| ReadyCard (foodType : string)
| ResultsBlock (count : nat) (noun : string) (body : results_body).

Definition render_results (st : AppState) : list app_block :=
  (if isLoading st then [LoadingCard] else [])
  ++ (if negb (isLoading st) && negb (hasSearched st)
      then [ReadyCard (foodType (filters st))] else [])
  ++ (if negb (isLoading st) && hasSearched st
      then [ResultsBlock
              (List.length (searchResults st))
              (if (List.length (searchResults st) =? 1)%nat then "result" else "results")
              (if (List.length (searchResults st) =? 0)%nat
               then NoProductsFound
               else ProductGrid (searchResults st))]
      else []).

(* ===================================================================== *)
(** * Vocabulary of the properties *)
(* ===================================================================== *)

(** ** Strings *)

(** All characters are white space. *)
Fixpoint all_white (s : string) : bool :=
  match s with
  | EmptyString => true
  | String c s' => is_white_space c && all_white s'
  end.

(** No character is a separator. *)
Fixpoint no_separator (s : string) : bool :=
  match s with
  | EmptyString => true
  | String c s' => negb (is_separator c) && no_separator s'
  end.

(** The string without its separators. *)
Fixpoint drop_separators (s : string) : string :=
  match s with
  | EmptyString => EmptyString
  | String c s' =>
      if is_separator c then drop_separators s' else String c (drop_separators s')
  end.

Definition newline : string := String "010" EmptyString.

(** ** Shapes of values *)

Definition is_array (v : value) : bool :=
  match v with
  | VArr _ => true
  | _ => false
  end.

Definition is_primitive (v : value) : bool :=
  match v with
  | VArr _ | VObj _ => false
  | _ => true
  end.

(** ** The criteria of the filter predicate *)

(** The six criteria of the predicate, in the words of the
    specification: when each one is enabled by the filter state and what
    it asks of the product. *)
Inductive criterion : Type :=
| BySearchTerm
| ByPetType
| ByLifeStage
| ByPregnant
| ByLactating
| BySpecialCare.

Definition criteria : list criterion :=
  [BySearchTerm; ByPetType; ByLifeStage; ByPregnant; ByLactating; BySpecialCare].

Definition enabled (c : criterion) (F : FilterState) : bool :=
  match c with
  | BySearchTerm => nonempty (searchTerm F)
  | ByPetType => nonempty (petType F)
  | ByLifeStage => nonempty (lifeStage F)
  | ByPregnant => isPregnant F
  | ByLactating => isLactating F
  | BySpecialCare => (0 <? List.length (specialCare F))%nat
  end.

Definition name_of (P : Product) : string :=
  match get "name" P with
  | VStr s => s
  | _ => ""
  end.

Definition flag_is_true (v : value) : bool :=
  match v with
  | VBool true => true
  | _ => false
  end.

Definition id_of (sc : value) : list string :=
  match opt_prop sc "id" with
  | VStr i => [i]
  | _ => []
  end.

(** The ids of the normalised special cares of a product. *)
Definition care_ids (P : Product) : list string :=
  flat_map id_of (getNormalizedSpecialCares (get "specialcares" P)).

Definition passes (c : criterion) (P : Product) (F : FilterState) : bool :=
  match c with
  | BySearchTerm =>
      includes (toLowerCase (name_of P)) (toLowerCase (searchTerm F))
  | ByPetType => strict_eq_str (get "petType" P) (petType F)
  | ByLifeStage => strict_eq_str (get "lifeStage" P) (lifeStage F)
  | ByPregnant => flag_is_true (get "forPregnant" P)
  | ByLactating => flag_is_true (get "forLactating" P)
  | BySpecialCare =>
      existsb (fun id => existsb (String.eqb id) (care_ids P)) (specialCare F)
  end.

(** Every enabled criterion passes. *)
Definition all_pass (P : Product) (F : FilterState) : bool :=
  forallb (fun c => implb (enabled c F) (passes c P F)) criteria.

(** ** Outcomes of a fetch *)

(** A fetch fails by rejection (transport), by a status outside 200-299,
    or by a body that is not JSON. *)
Definition fetch_failed (f : fetched) : bool :=
  match f with
  | Rejected _ => true
  | Response status b =>
      negb (ok_status status)
      || match b with
         | InvalidJson _ => true
         | Json _ => false
         end
  end.

(** What the fetch function makes of the reply to its request. *)
Definition specialCare_reply (f : fetched) : result (list value) :=
  match f with
  | Rejected msg => Throw (TypeError msg)
  | Response status b =>
      if negb (ok_status status) then
        (errorData <- match json b with
                      | OK v => OK v
                      | Throw _ => OK (VObj [("message", VStr "API request failed")])
                      end ;;
         m <- prop errorData "message" ;;
         text <- ToString (js_or m (VStr ("Request failed with status "
                                          ++ NumberToString status)%string)) ;;
         Throw (Error text))%result
      else
        (data <- json b ;;
         match nested_list data with
         | VArr items => mapR toOption items
         | _ => OK []
         end)%result
  end.

(** ** Sample data *)

Definition lowFat : value := VObj [("id", VStr "1"); ("name", VStr "Low Fat")].

Definition renal : value := VObj [("id", VStr "2"); ("name", VStr "Renal")].

Definition dogOption : value := VObj [("id", VStr "11"); ("name", VStr "Joint care")].

Definition adultMini : Product :=
  [("id", VNum 7); ("name", VStr "Adult Mini"); ("petType", VStr "dog");
   ("lifeStage", VStr "adult"); ("forPregnant", VBool false);
   ("specialcares", VObj [("x", lowFat); ("y", renal)])].

Definition seniorCat : Product :=
  [("name", VStr "Senior Cat"); ("petType", VStr "cat");
   ("specialcares", VArr [renal])].

Definition rawAdultMini : obj :=
  [("id", VNum 7); ("name", VStr ""); ("productType", VStr "wet");
   ("type", VStr "dog"); ("lifeStages", VObj [("3", VStr "adult")])].

Definition dog_with_cares : FilterState :=
  mkFilterState "dry" "dog" false false "adult" ["1"; "2"] "".

Definition wantsRenal : FilterState :=
  mkFilterState "dry" "dog" false false "" ["9"; "2"] "MINI".

Definition wantsPregnant : FilterState :=
  mkFilterState "dry" "dog" true false "" [] "".

Definition sampleApp : World AppState :=
  mkWorld (mkAppState wantsRenal [adultMini; seniorCat] [] false true) [] [].

Definition freshApp : World AppState :=
  mkWorld (mkAppState initialFilters [adultMini] [] false false) [] [].

Definition freshPanel : World PanelState :=
  mkWorld (mkPanelState initialFilters [] false None) [] [].

Definition dogPanel : World PanelState :=
  mkWorld (mkPanelState initialFilters [dogOption] false None)
          [specialcares_request "dog"] [].

Definition net_down : nat -> fetched := fun _ => Rejected "Failed to fetch".

Definition net_unavailable : nat -> fetched :=
  fun _ => Response 503 (InvalidJson "Unexpected token").

Definition net_no_list : nat -> fetched :=
  fun _ => Response 200 (Json (VObj [("result", VArr [])])).

(** ** More vocabulary *)

(** The fields the loader writes over the raw record. *)
Definition written_keys : list string :=
  ["id"; "name"; "productType"; "petType"; "lifeStage"; "specialcares"].

Definition is_object (v : value) : bool :=
  match v with
  | VObj _ => true
  | _ => false
  end.

(** The option made from a raw special-care record. *)
Definition option_of (item : value) : value :=
  VObj [("id", opt_prop item "specialcare_id");
        ("name", opt_prop item "specialcare_name")].

(** The predicate says yes. *)
Definition shown (P : Product) (F : FilterState) : bool :=
  match matches P F with
  | OK true => true
  | _ => false
  end.

Definition nullCare : Product :=
  [("name", VStr "Adult Mini"); ("specialcares", VArr [VNull])].

Definition wantsLowFat : FilterState :=
  mkFilterState "dry" "" false false "" ["1"] "".

(** The life stage the loader picks from the raw [lifeStages]. *)
Definition first_stage (lifeStages : value) : value :=
  if truthy lifeStages
  then match Object_values lifeStages with
       | OK stages => js_coalesce (nth 0 stages VUndefined) (VStr "")
       | Throw _ => VStr ""
       end
  else VStr "".

(** What the product loader makes of the reply to its request. *)
Definition products_reply (foodType : string) (f : fetched) : result (list Product) :=
  match f with
  | Rejected msg => Throw (TypeError msg)
  | Response status b =>
      if negb (ok_status status) then Throw (Error "")
      else
        (data <- json b ;;
         raw <- Object_values
                  (js_or (opt_prop (opt_prop data "result") "products") (VObj [])) ;;
         mapR (toProduct foodType) raw)%result
  end.

Definition rawSeniorCat : obj :=
  [("id", VStr "c9"); ("name", VStr "Senior Cat"); ("type", VStr "cat");
   ("forPregnant", VBool false); ("specialcares", VArr [renal])].

Definition net_catalog : nat -> fetched :=
  fun _ => Response 200
             (Json (VObj [("result",
                           VObj [("products",
                                  VObj [("10", VObj rawAdultMini);
                                        ("11", VObj rawSeniorCat)])])])).

Definition net_null_record : nat -> fetched :=
  fun _ => Response 200
             (Json (VObj [("result",
                           VObj [("products",
                                  VObj [("10", VObj rawAdultMini);
                                        ("11", VNull)])])])).

Definition loadedApp : World AppState :=
  mkWorld (mkAppState wantsRenal [adultMini; seniorCat] [adultMini] false true)
          [products_request "dry"] [].

Definition rawOption (id name : string) : value :=
  VObj [("specialcare_id", VStr id); ("specialcare_name", VStr name)].

Definition options_body (items : list value) : value :=
  VObj [("result",
         VArr [VObj [("specialcares",
                      VArr [VObj [("list", VArr items)]])]])].

Definition net_options : nat -> fetched :=
  fun _ => Response 200 (Json (options_body [rawOption "4" "Renal"; rawOption "6" "Obesity"])).

Definition net_null_option : nat -> fetched :=
  fun _ => Response 200 (Json (options_body [rawOption "4" "Renal"; VNull])).

Definition net_forbidden : nat -> fetched :=
  fun _ => Response 403 (Json (VObj [("message", VStr "Forbidden")])).

Definition erroredPanel : World PanelState :=
  mkWorld (mkPanelState (mkFilterState "dry" "" false false "" [] "")
                        [dogOption] false (Some "Forbidden"))
          [specialcares_request "dog"] [Error "Forbidden"].

Definition rawOddStage : obj :=
  [("id", VNum 8); ("name", VStr "Kitten Pate"); ("type", VStr "cat");
   ("lifeStages", VObj [("2", VObj [("code", VStr "kitten")])])].

(* ===================================================================== *)
(** * Properties *)
(* ===================================================================== *)

(** ** Strings *)



Lemma trimEnd_empty (s : string) : trimEnd s = "" <-> all_white s = true.
Proof.
  induction s as [|c s IH]; simpl.
  - tauto.
  - destruct (is_white_space c); simpl.
    + destruct (trimEnd s) eqn:E; simpl.
      * split; [intros _; now apply IH | reflexivity].
      * split; [discriminate|]. intros H. apply IH in H. discriminate.
    + split; discriminate.
Qed.

Lemma trimStart_shape (s : string) :
  (trimStart s = "" /\ all_white s = true)
  \/ (exists c t, trimStart s = String c t /\ is_white_space c = false).
Proof.
  induction s as [|c s IH]; simpl.
  - left. split; reflexivity.
  - destruct (is_white_space c) eqn:E; simpl.
    + exact IH.
    + right. exists c, s. split; [reflexivity|exact E].
Qed.

(** [trim] leaves nothing exactly when the string is all white space. *)
Lemma trim_empty (s : string) : trim s = "" <-> all_white s = true.
Proof.
  unfold trim. destruct (trimStart_shape s) as [[E W]|[c [t [E W]]]].
  - rewrite E. simpl. tauto.
  - rewrite E. split.
    + intros H. apply trimEnd_empty in H. simpl in H. rewrite W in H. discriminate.
    + intros H. exfalso.
      assert (G : forall u, all_white u = true -> trimStart u = "").
      { induction u as [|d u IHu]; simpl; [reflexivity|].
        intros A. apply andb_prop in A. destruct A as [A1 A2].
        rewrite A1. now apply IHu. }
      rewrite (G s H) in E. discriminate.
Qed.

(** The pieces of an all-white string are all white. *)
Lemma split_from_all_white (s : string) :
  all_white s = true ->
  forall b, Forall (fun p => all_white p = true) (split_from b s).
Proof.
  induction s as [|c s IH]; simpl; intros W b.
  - constructor; [reflexivity|constructor].
  - apply andb_prop in W. destruct W as [Wc Ws].
    destruct (is_separator c).
    + destruct b; [now apply IH|].
      constructor; [reflexivity|now apply IH].
    + specialize (IH Ws false).
      destruct (split_from false s) as [|p ps].
      * constructor; [simpl; now rewrite Wc|constructor].
      * inversion IH; subst. constructor; [simpl; now rewrite Wc|assumption].
Qed.

(** No piece contains a separator. *)
Lemma split_from_no_separator (s : string) :
  forall b, Forall (fun p => no_separator p = true) (split_from b s).
Proof.
  induction s as [|c s IH]; simpl; intros b.
  - constructor; [reflexivity|constructor].
  - destruct (is_separator c) eqn:E.
    + destruct b; [apply IH|]. constructor; [reflexivity|apply IH].
    + specialize (IH false). destruct (split_from false s) as [|p ps].
      * constructor; [simpl; now rewrite E|constructor].
      * inversion IH; subst. constructor; [simpl; now rewrite E|assumption].
Qed.

(** Put back together, the pieces are the string without its
    separators. *)
Lemma split_from_concat (s : string) :
  forall b, String.concat "" (split_from b s) = drop_separators s.
Proof.
  induction s as [|c s IH]; simpl; intros b.
  - reflexivity.
  - destruct (is_separator c).
    + destruct b; [apply IH|].
      specialize (IH true). destruct (split_from true s); simpl in *; exact IH.
    + specialize (IH false). destruct (split_from false s) as [|p ps].
      * simpl in *. now rewrite <- IH.
      * rewrite <- IH. destruct ps; reflexivity.
Qed.

(** A string of white space only has no benefit in it. *)
Lemma split_benefits_all_white (s : string) :
  all_white s = true -> split_benefits s = [].
Proof.
  intros W. unfold split_benefits, split_separators.
  pose proof (split_from_all_white s W false) as F.
  induction F as [|p ps Hp _ IH]; simpl.
  - reflexivity.
  - apply trim_empty in Hp. rewrite Hp. simpl. exact IH.
Qed.

(** ** Display normalisers *)

(** C5.  The benefits normaliser: a sequence gives its first three
    elements in order (five elements give exactly the first three); a
    string, taken on the ASCII strings where trimming is the engine's,
    gives the first three of its non-empty trimmed pieces between
    newlines, semicolons and commas (so "a; b,c<newline>d" gives a, b, c;
    blanks go at both ends of a piece and a piece of blanks goes
    altogether); anything else gives the empty sequence.  The normaliser
    is a total function: no input makes it throw. *)
Theorem getNormalizedBenefits_spec :
  (forall l, getNormalizedBenefits (VArr l) = firstn 3 l)
  /\ (forall a b c d e,
        getNormalizedBenefits (VArr [a; b; c; d; e]) = [a; b; c])
  /\ (forall s,
        ascii_only s = true ->
        getNormalizedBenefits (VStr s)
        = map VStr (firstn 3 (filter nonempty (map trim (split_separators s)))))
  /\ getNormalizedBenefits (VStr ("a; b,c" ++ newline ++ "d"))
     = [VStr "a"; VStr "b"; VStr "c"]
  /\ getNormalizedBenefits (VStr "  shiny coat  ;rich in omega 3 ")
     = [VStr "shiny coat"; VStr "rich in omega 3"]
  /\ getNormalizedBenefits (VStr (",a; ;" ++ newline ++ "b ,"))
     = [VStr "a"; VStr "b"]
  /\ getNormalizedBenefits (VStr "   ") = []
  /\ getNormalizedBenefits VUndefined = []
  /\ getNormalizedBenefits VNull = []
  /\ (forall b, getNormalizedBenefits (VBool b) = [])
  /\ (forall n, getNormalizedBenefits (VNum n) = [])
  /\ (forall o, getNormalizedBenefits (VObj o) = []).
Proof.
  repeat split; try reflexivity.
  intros s _. cbn [getNormalizedBenefits].
  change (firstn 3 (filter nonempty (map trim (split_separators s))))
    with (split_benefits s).
  destruct (trim s) eqn:E.
  - apply trim_empty in E.
    rewrite (split_benefits_all_white s E). reflexivity.
  - reflexivity.
Qed.

Lemma getNormalizedBenefits_witness :
  getNormalizedBenefits (VStr "low fat , no grain")
  = [VStr "low fat"; VStr "no grain"].
Proof.
  exact (proj1 (proj2 (proj2 getNormalizedBenefits_spec))
           "low fat , no grain" eq_refl).
Defined.

(** C6.  The life-stage label: absent or empty input gives "-"; the
    tokens puppy-kitten, adult and senior, in any letter case, give
    "Puppy/Kitten", "Adult" and "Senior" ("SENIOR" gives "Senior"); any
    other non-empty token, taken on the ASCII strings where the case
    mapping is the engine's, comes back with its first character in upper
    case and the rest unchanged ("giant" gives "Giant"). *)
Theorem getLifeStageLabel_spec :
  getLifeStageLabel VUndefined = OK "-"
  /\ getLifeStageLabel VNull = OK "-"
  /\ getLifeStageLabel (VStr "") = OK "-"
  /\ (forall s, toLowerCase s = "puppy-kitten" ->
        getLifeStageLabel (VStr s) = OK "Puppy/Kitten")
  /\ (forall s, toLowerCase s = "adult" ->
        getLifeStageLabel (VStr s) = OK "Adult")
  /\ (forall s, toLowerCase s = "senior" ->
        getLifeStageLabel (VStr s) = OK "Senior")
  /\ getLifeStageLabel (VStr "SENIOR") = OK "Senior"
  /\ (forall c s,
        ascii_only (String c s) = true ->
        toLowerCase (String c s) <> "puppy-kitten" ->
        toLowerCase (String c s) <> "adult" ->
        toLowerCase (String c s) <> "senior" ->
        getLifeStageLabel (VStr (String c s)) = OK (String (upper_char c) s))
  /\ getLifeStageLabel (VStr "giant") = OK "Giant".
Proof.
  assert (T : forall s l, toLowerCase s = l -> l <> "" ->
              truthy (VStr s) = true).
  { intros s l E N. destruct s; [simpl in E; congruence|reflexivity]. }
  repeat split; try reflexivity.
  - intros s E. unfold getLifeStageLabel.
    rewrite (T s _ E) by discriminate. simpl. now rewrite E.
  - intros s E. unfold getLifeStageLabel.
    rewrite (T s _ E) by discriminate. simpl. now rewrite E.
  - intros s E. unfold getLifeStageLabel.
    rewrite (T s _ E) by discriminate. simpl. now rewrite E.
  - intros c s _ N1 N2 N3. unfold getLifeStageLabel.
    cbn [truthy nonempty negb String.eqb].
    apply String.eqb_neq in N1, N2, N3.
    cbn [negb]. rewrite N1, N2, N3. reflexivity.
Qed.

Lemma getLifeStageLabel_witness :
  getLifeStageLabel (VStr "Adult") = OK "Adult"
  /\ getLifeStageLabel (VStr "kitten") = OK "Kitten".
Proof.
  split.
  - apply (proj1 (proj2 (proj2 (proj2 (proj2 getLifeStageLabel_spec))))).
    reflexivity.
  - apply (proj1 (proj2 (proj2 (proj2 (proj2 (proj2 (proj2 (proj2
             getLifeStageLabel_spec)))))))); [reflexivity|discriminate..].
Defined.

(** C7.  The special-care normaliser: a sequence comes back unchanged; a
    mapping gives the sequence of its values (the two-entry mapping of
    the specification gives both of its {id, name} pairs); absent input
    and every other shape give the empty sequence. *)
Theorem getNormalizedSpecialCares_spec :
  (forall l, getNormalizedSpecialCares (VArr l) = l)
  /\ (forall o, getNormalizedSpecialCares (VObj o) = values o)
  /\ getNormalizedSpecialCares (VObj [("x", lowFat); ("y", renal)])
     = [lowFat; renal]
  /\ forallb is_SpecialCareItem
       (getNormalizedSpecialCares (VObj [("x", lowFat); ("y", renal)])) = true
  /\ getNormalizedSpecialCares VUndefined = []
  /\ getNormalizedSpecialCares VNull = []
  /\ (forall b, getNormalizedSpecialCares (VBool b) = [])
  /\ (forall n, getNormalizedSpecialCares (VNum n) = [])
  /\ (forall s, getNormalizedSpecialCares (VStr s) = []).
Proof.
  repeat split; try reflexivity.
  - intros b. unfold getNormalizedSpecialCares. now destruct (truthy (VBool b)).
  - intros n. unfold getNormalizedSpecialCares. now destruct (truthy (VNum n)).
  - intros s. unfold getNormalizedSpecialCares. now destruct (truthy (VStr s)).
Qed.

Lemma get_set_same (k : string) (v : value) (o : obj) :
  get k (set k v o) = v.
Proof.
  induction o as [|[k' v'] o IH]; simpl.
  - now rewrite String.eqb_refl.
  - destruct (k' =? k) eqn:E; simpl.
    + now rewrite String.eqb_refl.
    + now rewrite E.
Qed.

Lemma get_set_other (k k' : string) (v : value) (o : obj) :
  k' <> k -> get k (set k' v o) = get k o.
Proof.
  intros N. induction o as [|[k0 v0] o IH]; simpl.
  - apply String.eqb_neq in N. now rewrite N.
  - destruct (k0 =? k') eqn:E; simpl.
    + apply String.eqb_eq in E. subst k0.
      apply String.eqb_neq in N. now rewrite N.
    + now rewrite IH.
Qed.

(** C10.  The image source depends on the [img] field alone: it is [img]
    when that is a non-empty string and the empty string when [img] is
    absent or empty; writing [image] or [img_thumbnail] changes nothing,
    so a product that carries only those two gets the "No Image" box. *)
Theorem getImageSource_spec :
  (forall p q, get "img" p = get "img" q -> getImageSource p = getImageSource q)
  /\ (forall p s, get "img" p = VStr s -> s <> "" -> getImageSource p = VStr s)
  /\ (forall p, get "img" p = VUndefined -> getImageSource p = VStr "")
  /\ (forall p, get "img" p = VStr "" -> getImageSource p = VStr "")
  /\ (forall p image thumbnail,
        getImageSource (set "image" image (set "img_thumbnail" thumbnail p))
        = getImageSource p)
  /\ (forall p image thumbnail,
        get "img" p = VUndefined ->
        render_image (set "image" image (set "img_thumbnail" thumbnail p))
        = NoImage).
Proof.
  assert (S : forall p image thumbnail,
             get "img" (set "image" image (set "img_thumbnail" thumbnail p))
             = get "img" p).
  { intros. rewrite !get_set_other by discriminate. reflexivity. }
  unfold render_image, getImageSource. repeat split.
  - intros p q E. now rewrite E.
  - intros p s E N. rewrite E. unfold js_or. simpl.
    apply String.eqb_neq in N. unfold nonempty. now rewrite N.
  - intros p E. now rewrite E.
  - intros p E. now rewrite E.
  - intros. now rewrite S.
  - intros p image thumbnail E. rewrite S, E. reflexivity.
Qed.

Lemma getImageSource_witness :
  getImageSource [("name", VStr "Adult Mini"); ("img", VStr "mini.png")]
  = VStr "mini.png"
  /\ render_image [("name", VStr "Adult Mini"); ("image", VStr "a.png");
                   ("img_thumbnail", VStr "t.png")] = NoImage.
Proof.
  split.
  - apply (proj1 (proj2 getImageSource_spec)
             [("name", VStr "Adult Mini"); ("img", VStr "mini.png")] "mini.png");
      [reflexivity|discriminate].
  - apply (proj2 (proj2 (proj2 (proj2 (proj2 getImageSource_spec))))
             [("name", VStr "Adult Mini")] (VStr "a.png") (VStr "t.png")).
    reflexivity.
Defined.

(** ** Filter form *)

Lemma updateFilter_other_key (k : key) (v : field k) (prev : FilterState) :
  k <> K_petType -> petType (updateFilter k v prev) = petType prev.
Proof.
  intros N. destruct k; try reflexivity. congruence.
Qed.

(** C4.  Whatever update the form applies to a filter state, if it
    changes [petType] the selected special-care ids are gone afterwards;
    in particular going from "dog" to "cat" empties them. *)
Theorem petType_change_clears_specialCare (prev : FilterState) :
  (forall u,
      petType (apply_update u prev) <> petType prev ->
      specialCare (apply_update u prev) = [])
  /\ (petType prev = "dog" ->
      petType (updateFilter K_petType "cat" prev) = "cat"
      /\ specialCare (updateFilter K_petType "cat" prev) = []).
Proof.
  split.
  - intros [k v|careId] H.
    + destruct k; try (exfalso; apply H; reflexivity).
      cbn [apply_update] in *. unfold updateFilter in *.
      cbn [petType_changes] in *.
      destruct (petType prev =? v) eqn:E; cbn [negb] in *.
      * apply String.eqb_eq in E. exfalso. apply H. simpl. congruence.
      * reflexivity.
    + exfalso. apply H. reflexivity.
  - intros E. unfold updateFilter. cbn [petType_changes]. rewrite E. split; reflexivity.
Qed.

Lemma petType_change_clears_specialCare_witness :
  specialCare (apply_update (UpdateFilter K_petType "cat") dog_with_cares) = []
  /\ petType (updateFilter K_petType "cat" dog_with_cares) = "cat"
  /\ specialCare (updateFilter K_petType "cat" dog_with_cares) = [].
Proof.
  split.
  - apply (proj1 (petType_change_clears_specialCare dog_with_cares)
             (UpdateFilter K_petType "cat")).
    discriminate.
  - apply (proj2 (petType_change_clears_specialCare dog_with_cares)).
    reflexivity.
Defined.

(** ** Filter predicate *)

Lemma is_Product_fields (P : Product) :
  is_Product P = true ->
  is_string (get "name" P) = true
  /\ opt_boolean (get "forPregnant" P) = true
  /\ opt_boolean (get "forLactating" P) = true
  /\ is_specialcares (get "specialcares" P) = true.
Proof.
  unfold is_Product. rewrite !andb_true_iff. tauto.
Qed.

Lemma mapR_id_items (l : list value) :
  forallb is_SpecialCareItem l = true ->
  mapR (fun sc => prop sc "id") l = OK (map (fun sc => opt_prop sc "id") l).
Proof.
  induction l as [|x l IH]; simpl; intros H.
  - reflexivity.
  - apply andb_prop in H. destruct H as [Hx Hl].
    rewrite (IH Hl). destruct x; try discriminate. reflexivity.
Qed.

(** On a well-typed special-care field the predicate collects the [id]
    of every normalised item and does not throw. *)
Lemma productCareIds_of_typed (P : Product) :
  is_specialcares (get "specialcares" P) = true ->
  productCareIds_of P
  = OK (map (fun sc => opt_prop sc "id")
            (getNormalizedSpecialCares (get "specialcares" P))).
Proof.
  unfold productCareIds_of, getNormalizedSpecialCares, is_specialcares.
  destruct (get "specialcares" P) as [| | b | n | s | l | o]; try discriminate;
    intros H; try reflexivity; simpl; now apply mapR_id_items.
Qed.

Lemma includes_id_care_ids (l : list value) (id : string) :
  includes_id (map (fun sc => opt_prop sc "id") l) id
  = existsb (String.eqb id) (flat_map id_of l).
Proof.
  unfold includes_id. induction l as [|x l IH]; cbn [map flat_map existsb].
  - reflexivity.
  - rewrite existsb_app, IH.
    unfold id_of. destruct (opt_prop x "id"); simpl; try reflexivity.
    now rewrite orb_false_r, String.eqb_sym.
Qed.

Lemma existsb_pointwise {A : Type} (f g : A -> bool) (l : list A) :
  (forall a, f a = g a) -> existsb f l = existsb g l.
Proof.
  intros E. induction l as [|a l IH]; simpl; [reflexivity|].
  now rewrite E, IH.
Qed.

Lemma truthy_flag (v : value) :
  opt_boolean v = true -> truthy v = flag_is_true v.
Proof.
  destruct v as [| | [|] | | | |]; simpl; intros H; try discriminate; reflexivity.
Qed.

(** The predicate, on a product whose name is a string, whose two flags
    are booleans when present and whose special cares are well typed,
    returns the conjunction of the enabled criteria. *)
Lemma matches_all_pass (P : Product) (F : FilterState) :
  is_string (get "name" P) = true ->
  opt_boolean (get "forPregnant" P) = true ->
  opt_boolean (get "forLactating" P) = true ->
  is_specialcares (get "specialcares" P) = true ->
  matches P F = OK (all_pass P F).
Proof.
  intros Hn Hp Hl Hs.
  unfold matches, all_pass, criteria. cbn [forallb enabled passes].
  unfold name_toLowerCase, name_of, care_ids.
  rewrite (productCareIds_of_typed P Hs).
  rewrite (truthy_flag _ Hp), (truthy_flag _ Hl).
  destruct (get "name" P) as [| | | | name | |]; try discriminate.
  cbn [rbind].
  rewrite (existsb_pointwise _ _ (specialCare F)
             (includes_id_care_ids
                (getNormalizedSpecialCares (get "specialcares" P)))).
  destruct (nonempty (searchTerm F)); cbn [rbind implb negb andb];
    [destruct (includes (toLowerCase name) (toLowerCase (searchTerm F)));
     cbn [negb andb]; [|reflexivity]|];
    (destruct (nonempty (petType F)); cbn [implb negb andb];
     [destruct (strict_eq_str (get "petType" P) (petType F));
      cbn [negb andb]; [|reflexivity]|]);
    (destruct (nonempty (lifeStage F)); cbn [implb negb andb];
     [destruct (strict_eq_str (get "lifeStage" P) (lifeStage F));
      cbn [negb andb]; [|reflexivity]|]);
    (destruct (isPregnant F); cbn [implb negb andb];
     [destruct (flag_is_true (get "forPregnant" P));
      cbn [negb andb]; [|reflexivity]|]);
    (destruct (isLactating F); cbn [implb negb andb];
     [destruct (flag_is_true (get "forLactating" P));
      cbn [negb andb]; [|reflexivity]|]);
    (destruct (0 <? Datatypes.length (specialCare F))%nat; cbn [implb rbind];
     [|reflexivity]);
    (match goal with
     | |- context [existsb ?f ?l] => destruct (existsb f l)
     end; reflexivity).
Qed.

Lemma all_pass_true (P : Product) (F : FilterState) :
  all_pass P F = true <->
  (forall c, enabled c F = true -> passes c P F = true).
Proof.
  unfold all_pass. rewrite forallb_forall. split.
  - intros H c E. assert (I : In c criteria) by (destruct c; simpl; tauto).
    specialize (H c I). rewrite E in H. exact H.
  - intros H c _. destruct (enabled c F) eqn:E; [now apply H|reflexivity].
Qed.


Lemma normalized_typed (v : value) :
  is_specialcares v = true ->
  forallb is_SpecialCareItem (getNormalizedSpecialCares v) = true.
Proof.
  destruct v; simpl; intros H; try discriminate; try reflexivity; exact H.
Qed.



(** [products.filter] keeps, in their order, the products that pass. *)
Lemma filterProducts_typed (ps : list Product) (F : FilterState) :
  forallb is_Product ps = true ->
  filterProducts ps F = OK (filter (fun P => all_pass P F) ps).
Proof.
  induction ps as [|P ps IH]; simpl; intros H.
  - reflexivity.
  - apply andb_prop in H. destruct H as [HP Hps].
    destruct (is_Product_fields P HP) as [Hn [Hp [Hl Hs]]].
    rewrite (matches_all_pass P F Hn Hp Hl Hs), (IH Hps). reflexivity.
Qed.

(** The predicate returns as soon as the name is a string and the
    special cares, whatever their shape, hold items. *)
Lemma matches_returns (P : Product) (F : FilterState) :
  is_string (get "name" P) = true ->
  is_specialcares (get "specialcares" P) = true ->
  exists b, matches P F = OK b.
Proof.
  intros Hn Hs. unfold matches, name_toLowerCase.
  rewrite (productCareIds_of_typed P Hs).
  destruct (get "name" P); try discriminate. cbn [rbind].
  repeat match goal with
         | |- context [if ?b then _ else _] => destruct b; cbn [rbind]
         end; eexists; reflexivity.
Qed.

(** C8.  The predicate returns a boolean, without throwing, on every
    product of the declared type and every filter state, whether the
    special cares are absent, a sequence or a mapping with any keys; so
    does the filter over a list of such products.  Running the filter
    effect again on the state it produced gives that state again, and the
    effect writes [searchResults] only: products, filters, flags, request
    log and console are as before. *)
Theorem filter_total_and_pure :
  (forall P F, is_Product P = true -> exists b, matches P F = OK b)
  /\ (forall P F,
        is_string (get "name" P) = true ->
        get "specialcares" P = VUndefined ->
        exists b, matches P F = OK b)
  /\ (forall P F items,
        is_string (get "name" P) = true ->
        get "specialcares" P = VArr items ->
        forallb is_SpecialCareItem items = true ->
        exists b, matches P F = OK b)
  /\ (forall P F mapping,
        is_string (get "name" P) = true ->
        get "specialcares" P = VObj mapping ->
        forallb is_SpecialCareItem (values mapping) = true ->
        exists b, matches P F = OK b)
  /\ (forall ps F,
        forallb is_Product ps = true ->
        exists rs, filterProducts ps F = OK rs)
  /\ (forall w : World AppState,
        forallb is_Product (products (ui w)) = true ->
        exists w',
          filterEffect w = (OK tt, w')
          /\ filterEffect w' = (OK tt, w')
          /\ products (ui w') = products (ui w)
          /\ filters (ui w') = filters (ui w)
          /\ isLoading (ui w') = isLoading (ui w)
          /\ hasSearched (ui w') = hasSearched (ui w)
          /\ requests w' = requests w
          /\ console w' = console w).
Proof.
  repeat split.
  - intros P F T. destruct (is_Product_fields P T) as [Hn [_ [_ Hs]]].
    now apply matches_returns.
  - intros P F Hn E. apply matches_returns; [exact Hn|now rewrite E].
  - intros P F items Hn E I. apply matches_returns; [exact Hn|now rewrite E].
  - intros P F mapping Hn E I. apply matches_returns; [exact Hn|now rewrite E].
  - intros ps F T. eexists. now apply filterProducts_typed.
  - intros w T. eexists. split; [|split].
    + unfold filterEffect, bind, lift, setSearchResults, modify.
      rewrite (filterProducts_typed _ _ T). reflexivity.
    + unfold filterEffect, bind, lift, setSearchResults, modify.
      cbn [ui products filters]. rewrite (filterProducts_typed _ _ T).
      reflexivity.
    + cbn. repeat split; reflexivity.
Qed.

Lemma filter_total_and_pure_witness :
  (exists b, matches adultMini wantsRenal = OK b)
  /\ (exists rs, filterProducts [adultMini; seniorCat] wantsRenal = OK rs)
  /\ (exists w', filterEffect sampleApp = (OK tt, w')
                 /\ filterEffect w' = (OK tt, w')).
Proof.
  split; [|split].
  - exact (proj1 filter_total_and_pure adultMini wantsRenal eq_refl).
  - exact (proj1 (proj2 (proj2 (proj2 (proj2 filter_total_and_pure))))
             [adultMini; seniorCat] wantsRenal eq_refl).
  - destruct (proj2 (proj2 (proj2 (proj2 (proj2 filter_total_and_pure))))
                sampleApp eq_refl) as [w' [E1 [E2 _]]].
    exists w'. split; assumption.
Defined.

(** Outside the declared type the predicate can throw: a [null] among
    the special cares stops it when a special care is selected. *)
Example matches_null_item :
  matches [("name", VStr "Adult Mini"); ("specialcares", VArr [VNull])]
          wantsPregnant = OK false
  /\ matches [("name", VStr "Adult Mini"); ("specialcares", VArr [VNull])]
             (mkFilterState "dry" "" false false "" ["1"] "")
     = Throw (TypeError "Cannot read properties of null").
Proof. split; reflexivity. Qed.

(** ** Product loader *)

Lemma ToString_primitive (v : value) :
  is_primitive v = true -> exists s, ToString v = OK s.
Proof.
  destruct v as [| | [|] | n | s | l | o]; simpl; intros H;
    try discriminate; eexists; reflexivity.
Qed.

Lemma Object_values_truthy (v : value) :
  truthy v = true -> exists l, Object_values v = OK l.
Proof.
  destruct v; simpl; intros H; try discriminate; eexists; reflexivity.
Qed.

Ltac read_field :=
  repeat (rewrite get_set_other by discriminate); rewrite get_set_same.

Lemma prop_opt_prop (v : value) (k : string) :
  nullish v = false -> prop v k = OK (opt_prop v k).
Proof.
  destruct v; simpl; intros H; try discriminate; reflexivity.
Qed.

Lemma prop_nullish (v : value) (k : string) :
  nullish v = true -> exists e, prop v k = Throw e.
Proof.
  destruct v; simpl; intros H; try discriminate; eexists; reflexivity.
Qed.

(** C9.  A product made by the loader from a raw record has a string
    [id], the raw id converted to a string: the empty string when the raw
    id is absent, the raw id itself when it is a string, its decimal
    expansion when it is a safe integer, "true" or "false" when it is a
    boolean.  The product has a name that is not empty, the literal
    "Unknown Product" when the raw name is absent or empty; and its
    [productType] is the requested food type, whatever the raw record
    says.  The loader does make a product from every raw value other than
    [null] whose id is not itself an array or an object. *)
Theorem toProduct_fields (foodType : string) (prod : value) :
  (forall p,
      toProduct foodType prod = OK p ->
      (exists s, get "id" p = VStr s)
      /\ (nullish (opt_prop prod "id") = true -> get "id" p = VStr "")
      /\ (forall s, opt_prop prod "id" = VStr s -> get "id" p = VStr s)
      /\ (forall n, opt_prop prod "id" = VNum n ->
                    safe_integer n = true ->
                    get "id" p = VStr (NumberToString n))
      /\ (forall b, opt_prop prod "id" = VBool b ->
                    get "id" p = VStr (if b then "true" else "false"))
      /\ get "name" p = js_or (opt_prop prod "name") (VStr "Unknown Product")
      /\ truthy (get "name" p) = true
      /\ get "name" p <> VStr ""
      /\ (truthy (opt_prop prod "name") = false ->
          get "name" p = VStr "Unknown Product")
      /\ get "productType" p = VStr foodType)
  /\ (nullish prod = false ->
      is_primitive (opt_prop prod "id") = true ->
      exists p, toProduct foodType prod = OK p).
Proof.
  split.
  - intros p H. unfold toProduct in H.
    destruct (nullish prod) eqn:Np.
    { destruct (prop_nullish prod "id" Np) as [e E]. rewrite E in H. discriminate. }
    rewrite !(prop_opt_prop prod _ Np) in H. cbn [rbind] in H.
    destruct (ToString (js_coalesce (opt_prop prod "id") (VStr ""))) as [s|e] eqn:Es;
      cbn [rbind] in H; [|discriminate].
    match type of H with
    | rbind ?stage _ = _ => destruct stage as [st|e]; cbn [rbind] in H
    end; [|discriminate].
    injection H as <-.
    set (raw_name := opt_prop prod "name") in *.
    set (raw_id := opt_prop prod "id") in *.
    assert (Hid : forall a b c d e base,
              get "id" (set "specialcares" a (set "lifeStage" b (set "petType" c
                (set "productType" d (set "name" e (set "id" (VStr s) base))))))
              = VStr s) by (intros; read_field; reflexivity).
    assert (Hname : forall a b c d e base,
              get "name" (set "specialcares" a (set "lifeStage" b (set "petType" c
                (set "productType" d (set "name" e base)))))
              = e) by (intros; read_field; reflexivity).
    rewrite Hid, Hname. repeat split.
    + exists s. reflexivity.
    + intros N. destruct raw_id; try discriminate; simpl in Es; congruence.
    + intros s' E. rewrite E in Es. simpl in Es. congruence.
    + intros n E _. rewrite E in Es. simpl in Es. congruence.
    + intros b E. rewrite E in Es. destruct b; simpl in Es; congruence.
    + unfold js_or. destruct (truthy raw_name) eqn:T; [exact T|reflexivity].
    + unfold js_or. destruct (truthy raw_name) eqn:T.
      * intros E. rewrite E in T. discriminate.
      * discriminate.
    + intros T. unfold js_or. now rewrite T.
    + read_field. reflexivity.
  - intros Np Hp. unfold toProduct.
    rewrite !(prop_opt_prop prod _ Np). cbn [rbind].
    assert (Hc : is_primitive (js_coalesce (opt_prop prod "id") (VStr "")) = true).
    { unfold js_coalesce. destruct (nullish (opt_prop prod "id")); [reflexivity|exact Hp]. }
    destruct (ToString_primitive _ Hc) as [s Es]. rewrite Es. cbn [rbind].
    destruct (truthy (opt_prop prod "lifeStages")) eqn:T.
    + destruct (Object_values_truthy _ T) as [l El]. rewrite El. cbn [rbind].
      eexists. reflexivity.
    + cbn [rbind]. eexists. reflexivity.
Qed.

Lemma toProduct_fields_witness :
  exists p,
    toProduct "dry" (VObj rawAdultMini) = OK p
    /\ get "id" p = VStr "7"
    /\ get "name" p = VStr "Unknown Product"
    /\ get "productType" p = VStr "dry".
Proof.
  destruct (proj2 (toProduct_fields "dry" (VObj rawAdultMini)) eq_refl eq_refl)
    as [p E].
  exists p. split; [exact E|].
  destruct (proj1 (toProduct_fields "dry" (VObj rawAdultMini)) p E)
    as [_ [_ [_ [Hid [_ [_ [_ [_ [Hname Htype]]]]]]]]].
  split; [exact (Hid 7%Z eq_refl eq_refl)|].
  split; [exact (Hname eq_refl)|exact Htype].
Defined.

(** With no food type the loader empties the product list and returns:
    no request, and neither flag is written. *)
Lemma fetchProducts_no_foodType (net : nat -> fetched) (w : World AppState) :
  fetchProducts net "" w
  = (OK tt,
     mkWorld (mkAppState (filters (ui w)) [] (searchResults (ui w))
                         (isLoading (ui w)) (hasSearched (ui w)))
             (requests w) (console w)).
Proof. reflexivity. Qed.

(** The loader issues a request exactly for a non-empty food type. *)
Lemma fetchProducts_request (net : nat -> fetched) (foodType : string)
  (w : World AppState) :
  requests (snd (fetchProducts net foodType w)) <> requests w <->
  nonempty foodType = true.
Proof.
  split.
  - intros H. destruct (nonempty foodType) eqn:N; [reflexivity|].
    exfalso. apply H. unfold fetchProducts. rewrite N. reflexivity.
  - intros N H. unfold fetchProducts in H. rewrite N in H. cbn [negb] in H.
    unfold bind, try_finally, try_catch, fetch, setIsLoading, setHasSearched,
      setProducts, modify, throw, lift in H.
    cbn [ui requests console] in H.
    assert (L : forall x : World AppState,
               requests x = requests w ++ [products_request foodType] ->
               requests x <> requests w).
    { intros x E C. rewrite C in E. apply (f_equal (@List.length _)) in E.
      rewrite length_app in E. simpl in E. lia. }
    revert H. apply L.
    destruct (net (List.length (requests w))) as [msg|status b]; cbn;
      [reflexivity|].
    destruct (ok_status status); cbn; [|reflexivity].
    destruct b as [msg|data]; cbn; [reflexivity|].
    destruct (Object_values
                (js_or (opt_prop (opt_prop data "result") "products") (VObj [])))
      as [raw|e]; cbn; [|reflexivity].
    destruct (mapR (toProduct foodType) raw) as [ps|e]; reflexivity.
Qed.

(** C3.  Whatever the food type, when the loader issues its fetch and
    the fetch fails (transport failure, non-success status or unreadable
    body), the run ends normally with an empty product list, the
    has-searched flag set and the loading flag cleared; the two flags end
    so whether the fetch failed or succeeded, and one request was made. *)
Theorem fetchProducts_settles
  (net : nat -> fetched) (foodType : string) (w : World AppState) :
  requests (snd (fetchProducts net foodType w)) <> requests w ->
  fst (fetchProducts net foodType w) = OK tt
  /\ isLoading (ui (snd (fetchProducts net foodType w))) = false
  /\ hasSearched (ui (snd (fetchProducts net foodType w))) = true
  /\ filters (ui (snd (fetchProducts net foodType w))) = filters (ui w)
  /\ requests (snd (fetchProducts net foodType w))
     = requests w ++ [products_request foodType]
  /\ (fetch_failed (net (List.length (requests w))) = true ->
      products (ui (snd (fetchProducts net foodType w))) = []).
Proof.
  intros R. apply fetchProducts_request in R. rename R into N.
  unfold fetchProducts. rewrite N. cbn [negb].
  unfold bind, try_finally, try_catch, fetch, setIsLoading, setHasSearched,
    setProducts, modify, throw, lift.
  cbn [ui requests console].
  destruct (net (List.length (requests w))) as [msg|status b]; cbn.
  - repeat split; reflexivity.
  - destruct (ok_status status); cbn.
    + destruct b as [msg|data]; cbn.
      * repeat split; reflexivity.
      * destruct (Object_values
                    (js_or (opt_prop (opt_prop data "result") "products") (VObj [])))
          as [raw|e]; cbn.
        -- destruct (mapR (toProduct foodType) raw) as [ps|e]; cbn;
             repeat split; try reflexivity; discriminate.
        -- repeat split; try reflexivity; discriminate.
    + repeat split; reflexivity.
Qed.

Lemma fetchProducts_settles_witness :
  products (ui (snd (fetchProducts net_down "dry" freshApp))) = []
  /\ hasSearched (ui (snd (fetchProducts net_unavailable "wet" freshApp))) = true
  /\ isLoading (ui (snd (fetchProducts net_unavailable "wet" freshApp))) = false.
Proof.
  assert (D : requests (snd (fetchProducts net_down "dry" freshApp))
              <> requests freshApp) by discriminate.
  assert (U : requests (snd (fetchProducts net_unavailable "wet" freshApp))
              <> requests freshApp) by discriminate.
  split; [|split].
  - apply (fetchProducts_settles net_down "dry" freshApp D). reflexivity.
  - apply (fetchProducts_settles net_unavailable "wet" freshApp U).
  - apply (fetchProducts_settles net_unavailable "wet" freshApp U).
Defined.

(** ** Special-care option loader *)

Lemma error_text_nonempty (e : error) : nonempty (error_text e) = true.
Proof.
  unfold error_text. destruct (nonempty (message e)) eqn:E; [exact E|reflexivity].
Qed.

(** With no pet type the effect empties the option list and returns: no
    request, no error. *)
Lemma specialCareEffect_no_petType (net : nat -> fetched) (w : World PanelState) :
  petType (internalFilters (ui w)) = "" ->
  specialCareEffect net w
  = (OK tt,
     mkWorld (mkPanelState (internalFilters (ui w)) []
                           (isLoadingSpecialCare (ui w)) (errorSpecialCare (ui w)))
             (requests w) (console w)).
Proof.
  intros E. unfold specialCareEffect. rewrite E. reflexivity.
Qed.

(** One run of the fetch function: one request goes out; a failure is
    logged to the console and thrown again. *)
Lemma fetchSpecialCareOptionsApi_run
  {S : Type} (net : nat -> fetched) (petType : string) (w : World S) :
  nonempty petType = true ->
  fetchSpecialCareOptionsApi net petType w
  = match specialCare_reply (net (List.length (requests w))) with
    | OK options =>
        (OK options,
         mkWorld (ui w) (requests w ++ [specialcares_request petType]) (console w))
    | Throw e =>
        (Throw e,
         mkWorld (ui w) (requests w ++ [specialcares_request petType])
                 (console w ++ [e]))
    end.
Proof.
  intros N. unfold fetchSpecialCareOptionsApi. rewrite N. cbn [negb].
  unfold try_catch, bind, fetch, specialCare_reply.
  destruct (net (List.length (requests w))) as [msg|status b].
  - reflexivity.
  - destruct (ok_status status); cbn [negb].
    + unfold lift. destruct (json b) as [data|e]; cbn [rbind]; [|reflexivity].
      destruct (nested_list data); reflexivity.
    + unfold try_catch, lift, ret, throw, console_error.
      destruct (json b) as [errorData|e0]; cbn [rbind].
      * destruct (prop errorData "message") as [m|e1]; cbn [rbind]; [|reflexivity].
        destruct (ToString _) as [text|e2]; reflexivity.
      * reflexivity.
Qed.

(** One run of the caller. *)
Lemma loadOptions_run
  (net : nat -> fetched) (petType : string) (w : World PanelState) :
  nonempty petType = true ->
  loadOptions net petType w
  = match specialCare_reply (net (List.length (requests w))) with
    | OK options =>
        (OK tt,
         mkWorld (mkPanelState (internalFilters (ui w)) options false None)
                 (requests w ++ [specialcares_request petType]) (console w))
    | Throw e =>
        (OK tt,
         mkWorld (mkPanelState (internalFilters (ui w)) (specialCareOptions (ui w))
                               false (Some (error_text e)))
                 (requests w ++ [specialcares_request petType])
                 (console w ++ [e]))
    end.
Proof.
  intros N. unfold loadOptions.
  unfold bind at 1. unfold setIsLoadingSpecialCare at 1. unfold modify at 1.
  unfold bind at 1. unfold setErrorSpecialCare at 1. unfold modify at 1.
  cbn [ui requests console].
  unfold try_finally, try_catch. unfold bind at 1.
  rewrite (fetchSpecialCareOptionsApi_run net petType _ N).
  cbn [ui requests console].
  destruct (specialCare_reply (net (List.length (requests w)))); reflexivity.
Qed.

Lemma specialCare_reply_failed (f : fetched) :
  fetch_failed f = true -> exists e, specialCare_reply f = Throw e.
Proof.
  destruct f as [msg|status b]; simpl.
  - intros _. eexists. reflexivity.
  - destruct (ok_status status); cbn [negb orb].
    + destruct b; [|discriminate]. intros _. eexists. reflexivity.
    + intros _. destruct (json b) as [errorData|e0]; cbn [rbind].
      * destruct (prop errorData "message") as [m|e1]; cbn [rbind].
        -- destruct (ToString _) as [text|e2]; eexists; reflexivity.
        -- eexists. reflexivity.
      * eexists. reflexivity.
Qed.

(** C2, as the code has it.  For every non-empty pet type the load issues
    exactly one request and ends with the loading flag cleared.  When the
    call fails (rejection, non-success status or unreadable body) the
    fetch function throws to its caller, which stores a non-empty message
    and shows it; the stored options are what they were and none of them
    is shown.  When the body is JSON without the nested list, nothing is
    thrown: the options become empty and no message is stored. *)
Theorem loadOptions_outcomes
  (net : nat -> fetched) (petType : string) (w : World PanelState) :
  nonempty petType = true ->
  fst (loadOptions net petType w) = OK tt
  /\ requests (snd (loadOptions net petType w))
     = requests w ++ [specialcares_request petType]
  /\ isLoadingSpecialCare (ui (snd (loadOptions net petType w))) = false
  /\ (fetch_failed (net (List.length (requests w))) = true ->
      exists e,
        fst (fetchSpecialCareOptionsApi net petType w) = Throw e
        /\ errorSpecialCare (ui (snd (loadOptions net petType w)))
           = Some (error_text e)
        /\ nonempty (error_text e) = true
        /\ In (ErrorLine (error_text e))
              (render_specialCare (ui (snd (loadOptions net petType w))))
        /\ specialCareOptions (ui (snd (loadOptions net petType w)))
           = specialCareOptions (ui w)
        /\ rendered_options (ui (snd (loadOptions net petType w))) = [])
  /\ (forall status data,
        net (List.length (requests w)) = Response status (Json data) ->
        ok_status status = true ->
        is_array (nested_list data) = false ->
        fst (fetchSpecialCareOptionsApi net petType w) = OK []
        /\ errorSpecialCare (ui (snd (loadOptions net petType w))) = None
        /\ specialCareOptions (ui (snd (loadOptions net petType w))) = []).
Proof.
  intros N.
  rewrite (loadOptions_run net petType w N),
          (fetchSpecialCareOptionsApi_run net petType w N).
  split; [|split; [|split; [|split]]].
  - destruct (specialCare_reply _); reflexivity.
  - destruct (specialCare_reply _); reflexivity.
  - destruct (specialCare_reply _); reflexivity.
  - intros F. destruct (specialCare_reply_failed _ F) as [e E].
    rewrite E. exists e. cbn [fst snd ui].
    unfold rendered_options, render_specialCare, has_error.
    cbn [errorSpecialCare isLoadingSpecialCare specialCareOptions].
    rewrite (error_text_nonempty e). cbn.
    repeat split; try reflexivity. left. reflexivity.
  - intros status data E O A. rewrite E. unfold specialCare_reply.
    rewrite O. cbn [negb json rbind].
    destruct (nested_list data); try discriminate; repeat split; reflexivity.
Qed.

Lemma loadOptions_outcomes_witness :
  isLoadingSpecialCare (ui (snd (loadOptions net_down "cat" dogPanel))) = false
  /\ rendered_options (ui (snd (loadOptions net_unavailable "cat" dogPanel))) = []
  /\ errorSpecialCare (ui (snd (loadOptions net_no_list "dog" freshPanel))) = None.
Proof.
  split; [|split].
  - apply (loadOptions_outcomes net_down "cat" dogPanel eq_refl).
  - destruct (proj1 (proj2 (proj2 (proj2
               (loadOptions_outcomes net_unavailable "cat" dogPanel eq_refl))))
               eq_refl) as [e [_ [_ [_ [_ [_ R]]]]]].
    exact R.
  - apply (proj2 (proj2 (proj2 (proj2
             (loadOptions_outcomes net_no_list "dog" freshPanel eq_refl))))
             200%Z (VObj [("result", VArr [])]) eq_refl eq_refl eq_refl).
Defined.

(** Counterexample to C2 as the specification words it, twice over.  A body without the
    nested list is not an error: the fetch function returns the empty list
    and the caller stores no message.  And a failed load does not empty
    the stored options: those of the previous pet type stay in the state
    (hidden behind the message). *)
Lemma specialCare_error_counterexample :
  fst (fetchSpecialCareOptionsApi net_no_list "dog" freshPanel) = OK []
  /\ errorSpecialCare (ui (snd (loadOptions net_no_list "dog" freshPanel))) = None
  /\ render_specialCare (ui (snd (loadOptions net_no_list "dog" freshPanel)))
     = [NoneFoundLine]
  /\ fetch_failed (net_down 1) = true
  /\ specialCareOptions (ui (snd (loadOptions net_down "cat" dogPanel)))
     = [dogOption].
Proof. repeat split; reflexivity. Qed.

(* ===================================================================== *)
(** * Further properties *)
(* ===================================================================== *)

(** ** Case mapping and trimming *)

Lemma lower_upper_char (c : ascii) : lower_char (upper_char c) = lower_char c.
Proof. destruct c as [[] [] [] [] [] [] [] []]; reflexivity. Qed.

Lemma toLowerCase_toUpperCase (s : string) :
  toLowerCase (toUpperCase s) = toLowerCase s.
Proof.
  induction s as [|c s IH]; simpl; [reflexivity|].
  now rewrite lower_upper_char, IH.
Qed.

Lemma nonempty_toUpperCase (s : string) : nonempty (toUpperCase s) = nonempty s.
Proof. destruct s; reflexivity. Qed.

(** ** Filter predicate: what it reads and what it ignores *)

(** X1.  With no search term and no special care selected the predicate
    returns a boolean on every object, whatever its fields hold: the name
    and the special cares are not read. *)
Theorem matches_without_term_and_care (P : Product) (F : FilterState) :
  searchTerm F = "" ->
  specialCare F = [] ->
  exists b, matches P F = OK b.
Proof.
  intros Et Ec. unfold matches. rewrite Et, Ec. cbn.
  repeat match goal with
         | |- context [if ?b then _ else _] => destruct b
         end; eexists; reflexivity.
Qed.

Lemma matches_without_term_and_care_witness :
  exists b,
    matches [("name", VNum 4); ("specialcares", VArr [VNull])] wantsPregnant = OK b.
Proof.
  exact (matches_without_term_and_care
           [("name", VNum 4); ("specialcares", VArr [VNull])] wantsPregnant
           eq_refl eq_refl).
Defined.

(** X2.  The search is insensitive to the letter case of an ASCII term:
    the upper-cased term gives the same answer, or the same throw, as the
    term itself on every product. *)
Theorem matches_term_case (P : Product) (F : FilterState) :
  ascii_only (searchTerm F) = true ->
  matches P (assign K_searchTerm (toUpperCase (searchTerm F)) F) = matches P F.
Proof.
  intros _. destruct F as [ft pt preg lact ls sc term]. unfold matches. cbn [assign
    searchTerm petType lifeStage isPregnant isLactating specialCare foodType].
  now rewrite nonempty_toUpperCase, toLowerCase_toUpperCase.
Qed.

Lemma matches_term_case_witness :
  matches adultMini (assign K_searchTerm "MINI" wantsRenal)
  = matches adultMini (assign K_searchTerm "mini" wantsRenal).
Proof.
  exact (matches_term_case adultMini (assign K_searchTerm "mini" wantsRenal)
           eq_refl).
Defined.

(** X3.  The predicate does not look at the food type: changing it in
    the filter state changes no answer, for one product or for a list. *)
Theorem matches_ignores_foodType
  (ps : list Product) (F : FilterState) (foodType' : string) :
  (forall P, matches P (assign K_foodType foodType' F) = matches P F)
  /\ filterProducts ps (assign K_foodType foodType' F) = filterProducts ps F.
Proof.
  assert (H : forall P, matches P (assign K_foodType foodType' F) = matches P F).
  { intros P. destruct F. reflexivity. }
  split; [exact H|].
  induction ps as [|P ps IH]; cbn [filterProducts]; [reflexivity|].
  now rewrite H, IH.
Qed.

Lemma existsb_eqb_In (x : string) (l : list string) :
  existsb (String.eqb x) l = true <-> In x l.
Proof.
  rewrite existsb_exists. split.
  - intros [y [I E]]. apply String.eqb_eq in E. now subst.
  - intros I. exists x. split; [exact I|apply String.eqb_refl].
Qed.

Lemma toggle_absent (careId : string) (F : FilterState) :
  ~ In careId (specialCare F) ->
  toggleSpecialCare careId F = with_specialCare (specialCare F ++ [careId]) F.
Proof.
  intros N. unfold toggleSpecialCare.
  destruct (existsb (String.eqb careId) (specialCare F)) eqn:E; [|reflexivity].
  apply existsb_eqb_In in E. contradiction.
Qed.

(** X4.  Once a special care is selected, ticking one more never hides a
    product that was shown: the selected cares are alternatives. *)
Theorem toggle_on_keeps_shown (P : Product) (F : FilterState) (careId : string) :
  is_Product P = true ->
  specialCare F <> [] ->
  ~ In careId (specialCare F) ->
  matches P F = OK true ->
  matches P (toggleSpecialCare careId F) = OK true.
Proof.
  intros T Ne Ni H. destruct (is_Product_fields P T) as [Hn [Hp [Hl Hs]]].
  rewrite (matches_all_pass P F Hn Hp Hl Hs) in H.
  rewrite (matches_all_pass P _ Hn Hp Hl Hs). f_equal.
  assert (A : all_pass P F = true) by congruence.
  rewrite all_pass_true in A. apply all_pass_true.
  rewrite (toggle_absent careId F Ni).
  destruct F as [ft pt preg lact ls sc term]. cbn [specialCare] in *.
  intros c En. destruct c.
  - exact (A BySearchTerm En).
  - exact (A ByPetType En).
  - exact (A ByLifeStage En).
  - exact (A ByPregnant En).
  - exact (A ByLactating En).
  - cbn [passes with_specialCare specialCare]. rewrite existsb_app.
    apply orb_true_iff. left.
    apply (A BySpecialCare). cbn [enabled specialCare].
    destruct sc; [congruence|reflexivity].
Qed.

Lemma toggle_on_keeps_shown_witness :
  matches adultMini (toggleSpecialCare "5" wantsRenal) = OK true.
Proof.
  apply (toggle_on_keeps_shown adultMini wantsRenal "5" eq_refl).
  - discriminate.
  - intros [E|[E|[]]]; discriminate.
  - reflexivity.
Defined.

Lemma filter_all_pass_typed (ps : list Product) (F : FilterState) :
  forallb is_Product ps = true ->
  forallb is_Product (filter (fun P => all_pass P F) ps) = true.
Proof.
  induction ps as [|P ps IH]; simpl; intros H; [reflexivity|].
  apply andb_prop in H. destruct H as [HP Hps].
  destruct (all_pass P F); simpl; [rewrite HP|]; now apply IH.
Qed.

Lemma filter_twice {A : Type} (f : A -> bool) (l : list A) :
  filter f (filter f l) = filter f l.
Proof.
  induction l as [|a l IH]; simpl; [reflexivity|].
  destruct (f a) eqn:E; simpl; [rewrite E|]; now rewrite ?IH.
Qed.

(** X5.  On products of the declared type the filter returns exactly
    the products for which the predicate says yes, in the order of the
    list and never more of them; filtering the result again changes
    nothing. *)
Theorem filterProducts_keeps_matching (ps : list Product) (F : FilterState) :
  forallb is_Product ps = true ->
  exists rs,
    filterProducts ps F = OK rs
    /\ rs = filter (fun P => shown P F) ps
    /\ (forall P, In P rs <-> In P ps /\ matches P F = OK true)
    /\ List.length rs <= List.length ps
    /\ filterProducts rs F = OK rs.
Proof.
  intros T. exists (filter (fun P => all_pass P F) ps).
  assert (S : forall P, In P ps -> shown P F = all_pass P F).
  { intros P I. unfold shown.
    assert (TP : is_Product P = true)
      by (rewrite forallb_forall in T; now apply T).
    destruct (is_Product_fields P TP) as [Hn [Hp [Hl Hs]]].
    rewrite (matches_all_pass P F Hn Hp Hl Hs). now destruct (all_pass P F). }
  split; [now apply filterProducts_typed|]. split; [|split; [|split]].
  - clear T. induction ps as [|P ps IH]; simpl; [reflexivity|].
    rewrite <- (S P (or_introl eq_refl)).
    rewrite IH by (intros Q I; apply S; now right). reflexivity.
  - intros P. rewrite filter_In. split.
    + intros [I A]. split; [exact I|].
      rewrite <- (S P I) in A. unfold shown in A.
      destruct (matches P F) as [[|]|]; congruence.
    + intros [I M]. split; [exact I|].
      rewrite <- (S P I). unfold shown. now rewrite M.
  - apply filter_length_le.
  - rewrite (filterProducts_typed _ F (filter_all_pass_typed ps F T)).
    now rewrite filter_twice.
Qed.

Lemma filterProducts_keeps_matching_witness :
  exists rs,
    filterProducts [adultMini; seniorCat] wantsRenal = OK rs
    /\ filterProducts rs wantsRenal = OK rs.
Proof.
  destruct (filterProducts_keeps_matching [adultMini; seniorCat] wantsRenal eq_refl)
    as [rs [E [_ [_ [_ I]]]]].
  exists rs. split; assumption.
Defined.

(** X6.  One product on which the predicate throws makes the whole
    filter throw: no result list comes out, whatever the other products
    are. *)
Theorem filterProducts_throws (ps : list Product) (F : FilterState)
  (P : Product) (e : error) :
  In P ps ->
  matches P F = Throw e ->
  exists e', filterProducts ps F = Throw e'.
Proof.
  intros I H. induction ps as [|Q ps IH]; [contradiction|].
  cbn [filterProducts]. destruct (matches Q F) as [keep|eQ] eqn:EQ; cbn [rbind].
  - destruct I as [->|I]; [congruence|].
    destruct (IH I) as [e' E']. rewrite E'. exists e'. reflexivity.
  - exists eQ. reflexivity.
Qed.

Lemma filterProducts_throws_witness :
  exists e', filterProducts [adultMini; nullCare; seniorCat] wantsLowFat = Throw e'.
Proof.
  apply (filterProducts_throws [adultMini; nullCare; seniorCat] wantsLowFat nullCare
           (TypeError "Cannot read properties of null")).
  - right. left. reflexivity.
  - reflexivity.
Defined.

(** ** Filter form *)

Lemma toggle_present (careId : string) (F : FilterState) :
  In careId (specialCare F) ->
  toggleSpecialCare careId F
  = with_specialCare (filter (fun id => negb (id =? careId)) (specialCare F)) F.
Proof.
  intros I. unfold toggleSpecialCare.
  apply existsb_eqb_In in I. now rewrite I.
Qed.

Lemma filter_other_ids (careId x : string) (l : list string) :
  In x (filter (fun id => negb (id =? careId)) l) <-> In x l /\ x <> careId.
Proof.
  rewrite filter_In, negb_true_iff, String.eqb_neq. tauto.
Qed.

(** X7.  Toggling a special care flips whether it is selected and
    nothing else: every other id keeps its status, the other fields keep
    their values, and a selection without repetition stays so. *)
Theorem toggleSpecialCare_flips (careId : string) (prev : FilterState) :
  (In careId (specialCare (toggleSpecialCare careId prev))
   <-> ~ In careId (specialCare prev))
  /\ (forall x, x <> careId ->
        (In x (specialCare (toggleSpecialCare careId prev))
         <-> In x (specialCare prev)))
  /\ (NoDup (specialCare prev) ->
      NoDup (specialCare (toggleSpecialCare careId prev)))
  /\ assign K_specialCare (specialCare prev) (toggleSpecialCare careId prev) = prev.
Proof.
  destruct (in_dec string_dec careId (specialCare prev)) as [I|N].
  - rewrite (toggle_present careId prev I).
    destruct prev as [ft pt preg lact ls sc term]. cbn [specialCare with_specialCare assign] in *.
    split; [|split; [|split]].
    + rewrite filter_other_ids. tauto.
    + intros x Nx. rewrite filter_other_ids. tauto.
    + apply NoDup_filter.
    + reflexivity.
  - rewrite (toggle_absent careId prev N).
    destruct prev as [ft pt preg lact ls sc term]. cbn [specialCare with_specialCare assign] in *.
    split; [|split; [|split]].
    + rewrite in_app_iff. simpl. tauto.
    + intros x Nx. rewrite in_app_iff. simpl. split; [|tauto].
      intros [H|[H|[]]]; [exact H|congruence].
    + intros D. apply NoDup_app; [exact D|repeat constructor; intros []|].
      intros a Ia [E|[]]. subst. contradiction.
    + reflexivity.
Qed.

Lemma toggleSpecialCare_flips_witness :
  NoDup (specialCare (toggleSpecialCare "2" dog_with_cares))
  /\ (In "1" (specialCare (toggleSpecialCare "2" dog_with_cares))
      <-> In "1" (specialCare dog_with_cares)).
Proof.
  split.
  - apply (proj1 (proj2 (proj2 (toggleSpecialCare_flips "2" dog_with_cares)))).
    repeat constructor; simpl; intuition discriminate.
  - apply (proj1 (proj2 (toggleSpecialCare_flips "2" dog_with_cares)) "1").
    discriminate.
Defined.

Lemma filter_absent_id (careId : string) (l : list string) :
  ~ In careId l -> filter (fun id => negb (id =? careId)) l = l.
Proof.
  induction l as [|x l IH]; cbn [filter]; intros N; [reflexivity|].
  destruct (String.eqb_spec x careId) as [->|Nx]; cbn [negb].
  - exfalso. apply N. left. reflexivity.
  - f_equal. apply IH. intros I. apply N. right. exact I.
Qed.

(** X8.  Ticking a special care that was not selected and unticking it
    again gives back the filter state as it was. *)
Theorem toggleSpecialCare_twice (careId : string) (prev : FilterState) :
  ~ In careId (specialCare prev) ->
  toggleSpecialCare careId (toggleSpecialCare careId prev) = prev.
Proof.
  intros N. rewrite (toggle_absent careId prev N).
  rewrite toggle_present
    by (destruct prev; cbn; apply in_or_app; right; left; reflexivity).
  destruct prev as [ft pt preg lact ls sc term].
  cbn [specialCare with_specialCare foodType petType isPregnant isLactating
       lifeStage searchTerm] in *.
  rewrite filter_app, (filter_absent_id careId sc N). cbn [filter].
  rewrite String.eqb_refl. cbn [negb]. now rewrite app_nil_r.
Qed.

Lemma toggleSpecialCare_twice_witness :
  toggleSpecialCare "7" (toggleSpecialCare "7" dog_with_cares) = dog_with_cares.
Proof.
  apply (toggleSpecialCare_twice "7" dog_with_cares).
  intros [E|[E|[]]]; discriminate.
Defined.

(** X9.  An update of the form is idempotent: applying the same key and
    value a second time changes nothing; and choosing the pet type that is
    already chosen leaves the whole state, selected cares included, as it
    is. *)
Theorem updateFilter_idempotent (k : key) (v : field k) (prev : FilterState) :
  updateFilter k v (updateFilter k v prev) = updateFilter k v prev
  /\ updateFilter K_petType (petType prev) prev = prev.
Proof.
  split.
  - destruct prev as [ft pt preg lact ls sc term].
    destruct k; unfold updateFilter; cbn; try reflexivity.
    destruct (pt =? v) eqn:E; cbn; rewrite String.eqb_refl; reflexivity.
  - destruct prev as [ft pt preg lact ls sc term].
    unfold updateFilter. cbn. rewrite String.eqb_refl. reflexivity.
Qed.

(** X10.  Only a change of pet type touches the selected cares: an
    update of any other field than [petType] and [specialCare] leaves them
    as they are, and every update writes the value it was given into its
    field. *)
Theorem updateFilter_writes (k : key) (v : field k) (prev : FilterState) :
  (k <> K_petType -> k <> K_specialCare ->
   specialCare (updateFilter k v prev) = specialCare prev)
  /\ match k as k0 return field k0 -> Prop with
     | K_foodType => fun v => foodType (updateFilter K_foodType v prev) = v
     | K_petType => fun v => petType (updateFilter K_petType v prev) = v
     | K_isPregnant => fun v => isPregnant (updateFilter K_isPregnant v prev) = v
     | K_isLactating => fun v => isLactating (updateFilter K_isLactating v prev) = v
     | K_lifeStage => fun v => lifeStage (updateFilter K_lifeStage v prev) = v
     | K_specialCare => fun v => specialCare (updateFilter K_specialCare v prev) = v
     | K_searchTerm => fun v => searchTerm (updateFilter K_searchTerm v prev) = v
     end v.
Proof.
  split.
  - intros N1 N2. destruct k; try reflexivity; congruence.
  - destruct k; try reflexivity.
    unfold updateFilter. cbn [petType_changes].
    destruct (negb (petType prev =? v)); reflexivity.
Qed.

Lemma updateFilter_writes_witness :
  specialCare (updateFilter K_lifeStage "senior" dog_with_cares) = ["1"; "2"].
Proof.
  apply (proj1 (updateFilter_writes K_lifeStage "senior" dog_with_cares));
    discriminate.
Defined.

(** ** Display normalisers *)

Lemma trimStart_no_separator (s : string) :
  no_separator s = true -> no_separator (trimStart s) = true.
Proof.
  induction s as [|c s IH]; simpl; intros H; [reflexivity|].
  apply andb_prop in H. destruct H as [Hc Hs].
  destruct (is_white_space c); [now apply IH|]. simpl. now rewrite Hc, Hs.
Qed.

Lemma trimEnd_no_separator (s : string) :
  no_separator s = true -> no_separator (trimEnd s) = true.
Proof.
  induction s as [|c s IH]; simpl; intros H; [reflexivity|].
  apply andb_prop in H. destruct H as [Hc Hs].
  destruct (is_white_space c && (trimEnd s =? "")); [reflexivity|].
  simpl. now rewrite Hc, IH.
Qed.

Lemma trimEnd_twice (s : string) : trimEnd (trimEnd s) = trimEnd s.
Proof.
  induction s as [|c s IH]; simpl; [reflexivity|].
  destruct (is_white_space c && (trimEnd s =? "")) eqn:E; [reflexivity|].
  simpl. now rewrite IH, E.
Qed.

Lemma trimEnd_head (c : ascii) (s : string) :
  is_white_space c = false -> trimEnd (String c s) = String c (trimEnd s).
Proof. intros W. simpl. now rewrite W. Qed.

(** Trimming what is trimmed changes nothing. *)
Lemma trim_twice (s : string) : trim (trim s) = trim s.
Proof.
  unfold trim. destruct (trimStart_shape s) as [[E _]|[c [t [E W]]]]; rewrite E.
  - reflexivity.
  - rewrite (trimEnd_head c t W). cbn [trimStart]. rewrite W.
    rewrite <- (trimEnd_head c t W). apply trimEnd_twice.
Qed.

Lemma In_firstn {A : Type} (n : nat) (l : list A) (x : A) :
  In x (firstn n l) -> In x l.
Proof.
  revert l. induction n as [|n IH]; intros [|a l]; simpl; try tauto.
  intros [H|H]; [now left|right; now apply IH].
Qed.

Lemma firstn_short {A : Type} (n : nat) (l : list A) :
  List.length (firstn n l) <= n.
Proof.
  revert l. induction n as [|n IH]; intros [|a l]; simpl; try lia.
  specialize (IH l). lia.
Qed.

Lemma getNormalizedBenefits_length (benefits : value) :
  List.length (getNormalizedBenefits benefits) <= 3.
Proof.
  destruct benefits as [| | b | n | s | l | o]; cbn [getNormalizedBenefits];
    try (cbn [List.length]; lia).
  - destruct (0 <? String.length (trim s))%nat; [|cbn [List.length]; lia].
    rewrite length_map. apply firstn_short.
  - apply firstn_short.
Qed.

(** X11.  Whatever it is given, the benefits normaliser returns at most
    three benefits; those taken from a string are strings that are not
    empty, carry no white space at either end and contain no newline,
    semicolon or comma. *)
Theorem getNormalizedBenefits_clean :
  (forall benefits, List.length (getNormalizedBenefits benefits) <= 3)
  /\ (forall s v,
        In v (getNormalizedBenefits (VStr s)) ->
        exists p, v = VStr p /\ p <> "" /\ trim p = p /\ no_separator p = true).
Proof.
  split; [exact getNormalizedBenefits_length|].
  intros s v I. cbn [getNormalizedBenefits] in I.
  destruct (0 <? String.length (trim s))%nat; [|contradiction].
  apply in_map_iff in I. destruct I as [p [<- I]]. exists p.
  split; [reflexivity|].
  unfold split_benefits in I. apply In_firstn in I.
  apply filter_In in I. destruct I as [I Ne].
  apply in_map_iff in I. destruct I as [q [<- I]].
  split; [|split].
  - unfold nonempty in Ne. apply negb_true_iff in Ne.
    now apply String.eqb_neq.
  - apply trim_twice.
  - pose proof (split_from_no_separator s false) as F.
    rewrite Forall_forall in F. specialize (F q I).
    unfold trim. now apply trimEnd_no_separator, trimStart_no_separator.
Qed.

Lemma getNormalizedBenefits_clean_witness :
  exists p, VStr "rich in omega 3" = VStr p /\ p <> "" /\ trim p = p
            /\ no_separator p = true.
Proof.
  apply (proj2 getNormalizedBenefits_clean
           (" shiny coat ;  rich in omega 3 " ++ newline)%string
           (VStr "rich in omega 3")).
  right. left. reflexivity.
Defined.

Lemma upper_char_dash (c : ascii) : upper_char c = "-"%char -> c = "-"%char.
Proof.
  destruct c as [[] [] [] [] [] [] [] []]; intros H;
    try reflexivity; cbv in H; discriminate H.
Qed.

Lemma getLifeStageLabel_shape (c : ascii) (s : string) :
  getLifeStageLabel (VStr (String c s)) = OK "Puppy/Kitten"
  \/ getLifeStageLabel (VStr (String c s)) = OK "Adult"
  \/ getLifeStageLabel (VStr (String c s)) = OK "Senior"
  \/ getLifeStageLabel (VStr (String c s)) = OK (String (upper_char c) s).
Proof.
  unfold getLifeStageLabel. cbn [truthy nonempty String.eqb negb].
  destruct (toLowerCase (String c s) =? "puppy-kitten"); [now left|].
  destruct (toLowerCase (String c s) =? "adult"); [right; now left|].
  destruct (toLowerCase (String c s) =? "senior"); [right; right; now left|].
  right. right. right. reflexivity.
Qed.

Lemma getLifeStageLabel_dash (s : string) :
  getLifeStageLabel (VStr s) = OK "-" <-> s = "" \/ s = "-".
Proof.
  destruct s as [|c s].
  - split; [intros _; now left|reflexivity].
  - split.
    + intros H. right.
      destruct (getLifeStageLabel_shape c s) as [E|[E|[E|E]]];
        rewrite E in H; try discriminate.
      injection H as Hc Hs. apply upper_char_dash in Hc. now subst.
    + intros [H|H]; [discriminate|]. injection H as -> ->. reflexivity.
Qed.

Lemma getLifeStageLabel_string (s : string) :
  exists label, getLifeStageLabel (VStr s) = OK label.
Proof.
  destruct s as [|c s]; [eexists; reflexivity|].
  destruct (getLifeStageLabel_shape c s) as [E|[E|[E|E]]];
    rewrite E; eexists; reflexivity.
Qed.

(** X12.  The life-stage label is "-" only for an absent or empty life
    stage and for the life stage "-" itself, so only those hide the badge
    of the card; the label of a string is never empty; and the function
    throws exactly on the truthy values that are not strings. *)
Theorem getLifeStageLabel_edges :
  (forall s, getLifeStageLabel (VStr s) = OK "-" <-> s = "" \/ s = "-")
  /\ (forall s l, getLifeStageLabel (VStr s) = OK l -> l <> "")
  /\ (forall v, (exists e, getLifeStageLabel v = Throw e)
                <-> truthy v = true /\ is_string v = false).
Proof.
  split; [exact getLifeStageLabel_dash|split].
  - intros [|c s] l H.
    + cbn in H. injection H as <-. discriminate.
    + destruct (getLifeStageLabel_shape c s) as [E|[E|[E|E]]]; rewrite E in H;
        injection H as <-; discriminate.
  - intros v. split.
    + intros [e H]. unfold getLifeStageLabel in H.
      destruct (truthy v) eqn:T; cbn [negb] in H; [|discriminate].
      split; [reflexivity|]. destruct v as [| | | | s | |]; try reflexivity.
      repeat match type of H with
             | (if ?b then _ else _) = _ => destruct b
             end; discriminate.
    + intros [T S]. unfold getLifeStageLabel. rewrite T. cbn [negb].
      destruct v; try discriminate; eexists; reflexivity.
Qed.

Lemma getLifeStageLabel_edges_witness :
  "Adult" <> ""
  /\ exists e, getLifeStageLabel (VObj [("id", VNum 3)]) = Throw e.
Proof.
  split.
  - apply (proj1 (proj2 getLifeStageLabel_edges) "adult" "Adult"). reflexivity.
  - apply (proj2 (proj2 getLifeStageLabel_edges) (VObj [("id", VNum 3)])).
    split; reflexivity.
Defined.

(** ** Product loader *)

(** The product made from a raw record, field by field. *)
Lemma toProduct_obj (foodType : string) (o : obj) (p : Product) :
  toProduct foodType (VObj o) = OK p ->
  exists s,
    ToString (js_coalesce (get "id" o) (VStr "")) = OK s
    /\ p = set "specialcares" (get "specialcares" o)
           (set "lifeStage" (first_stage (get "lifeStages" o))
           (set "petType" (js_or (get "type" o) (VStr ""))
           (set "productType" (VStr foodType)
           (set "name" (js_or (get "name" o) (VStr "Unknown Product"))
           (set "id" (VStr s) o))))).
Proof.
  unfold toProduct, first_stage. cbn [prop spread rbind].
  destruct (ToString (js_coalesce (get "id" o) (VStr ""))) as [s|e];
    cbn [rbind]; [|discriminate].
  destruct (truthy (get "lifeStages" o)) eqn:T.
  - destruct (Object_values_truthy _ T) as [l El]. rewrite El. cbn [rbind].
    intros H. injection H as <-. exists s. split; reflexivity.
  - cbn [rbind]. intros H. injection H as <-. exists s. split; reflexivity.
Qed.

Lemma not_written (k : string) :
  ~ In k written_keys ->
  "id" <> k /\ "name" <> k /\ "productType" <> k /\ "petType" <> k
  /\ "lifeStage" <> k /\ "specialcares" <> k.
Proof.
  unfold written_keys. simpl. intuition congruence.
Qed.

Lemma toProduct_untouched (foodType : string) (o : obj) (p : Product) :
  toProduct foodType (VObj o) = OK p ->
  (forall k, ~ In k written_keys -> get k p = get k o)
  /\ get "petType" p = js_or (get "type" o) (VStr "")
  /\ get "specialcares" p = get "specialcares" o
  /\ get "lifeStage" p = first_stage (get "lifeStages" o).
Proof.
  intros H. destruct (toProduct_obj foodType o p H) as [s [_ ->]].
  split; [|split; [|split]].
  - intros k N. destruct (not_written k N) as [N1 [N2 [N3 [N4 [N5 N6]]]]].
    now rewrite !get_set_other by assumption.
  - read_field. reflexivity.
  - read_field. reflexivity.
  - read_field. reflexivity.
Qed.

(** X13.  The loader keeps every field of the raw record that it does
    not write itself (image, flags, benefits, description and the rest
    come through untouched); the pet type of the product is the raw
    [type], or the empty string without one; the special cares are the raw
    ones, not normalised. *)
Theorem toProduct_carries_raw_fields (foodType : string) (o : obj) (p : Product) :
  toProduct foodType (VObj o) = OK p ->
  (forall k, ~ In k written_keys -> get k p = get k o)
  /\ get "petType" p = js_or (get "type" o) (VStr "")
  /\ get "specialcares" p = get "specialcares" o.
Proof.
  intros H. destruct (toProduct_untouched foodType o p H) as [K [Pt [Sc _]]].
  split; [exact K|split; assumption].
Qed.

Lemma toProduct_carries_raw_fields_witness :
  exists p,
    toProduct "dry" (VObj rawSeniorCat) = OK p
    /\ get "forPregnant" p = VBool false
    /\ get "petType" p = VStr "cat".
Proof.
  eexists. split; [reflexivity|].
  split.
  - apply (proj1 (toProduct_carries_raw_fields "dry" rawSeniorCat _ eq_refl)
             "forPregnant").
    unfold written_keys. simpl. intuition discriminate.
  - apply (proj1 (proj2 (toProduct_carries_raw_fields "dry" rawSeniorCat _ eq_refl))).
Defined.

(** X14.  The life stage of a loaded product is the first value of the
    raw [lifeStages] mapping in its enumeration order; it is the empty
    string when there is no mapping, when the mapping is empty and when
    that first value is [null]. *)
Theorem toProduct_lifeStage (foodType : string) (o : obj) (p : Product) :
  toProduct foodType (VObj o) = OK p ->
  (truthy (get "lifeStages" o) = false -> get "lifeStage" p = VStr "")
  /\ (get "lifeStages" o = VObj [] -> get "lifeStage" p = VStr "")
  /\ (forall k v rest,
        get "lifeStages" o = VObj ((k, v) :: rest) ->
        get "lifeStage" p = js_coalesce v (VStr "")).
Proof.
  intros H. destruct (toProduct_untouched foodType o p H) as [_ [_ [_ E]]].
  rewrite E. unfold first_stage. split; [|split].
  - intros T. now rewrite T.
  - intros L. rewrite L. reflexivity.
  - intros k v rest L. rewrite L. reflexivity.
Qed.

Lemma toProduct_lifeStage_witness :
  exists p,
    toProduct "dry" (VObj rawAdultMini) = OK p
    /\ get "lifeStage" p = VStr "adult".
Proof.
  eexists. split; [reflexivity|].
  apply (proj2 (proj2 (toProduct_lifeStage "dry" rawAdultMini _ eq_refl))
           "3" (VStr "adult") []).
  reflexivity.
Defined.

Lemma js_or_back (t : value) : js_or (js_or t (VStr "")) t = t.
Proof. unfold js_or. destruct (truthy t) eqn:T; [now rewrite T|reflexivity]. Qed.

(** X15.  On the card of a loaded product the product-type badge
    follows the food type that was requested ("Dry", "Wet", otherwise
    "Other"), never the raw record, and the pet-type badge follows the raw
    [type] ("Dog", "Cat", otherwise "-"). *)
Theorem loaded_card_labels (foodType : string) (o : obj) (p : Product) :
  nonempty foodType = true ->
  toProduct foodType (VObj o) = OK p ->
  getProductTypeLabel (get "productType" p) (get "type" p)
  = (if foodType =? "dry" then "Dry" else if foodType =? "wet" then "Wet" else "Other")
  /\ getPetTypeLabel (get "petType" p) (get "type" p)
     = (if strict_eq_str (get "type" o) "dog" then "Dog"
        else if strict_eq_str (get "type" o) "cat" then "Cat" else "-").
Proof.
  intros N H.
  destruct (toProduct_untouched foodType o p H) as [K [Pt _]].
  assert (Ty : get "type" p = get "type" o)
    by (apply K; unfold written_keys; simpl; intuition discriminate).
  destruct (toProduct_obj foodType o p H) as [s [_ E]].
  assert (Pr : get "productType" p = VStr foodType)
    by (rewrite E; read_field; reflexivity).
  split.
  - unfold getProductTypeLabel. rewrite Pr. unfold js_or.
    cbn [truthy]. rewrite N. reflexivity.
  - unfold getPetTypeLabel. rewrite Pt, Ty, js_or_back. reflexivity.
Qed.

Lemma loaded_card_labels_witness :
  exists p,
    toProduct "dry" (VObj rawAdultMini) = OK p
    /\ getProductTypeLabel (get "productType" p) (get "type" p) = "Dry"
    /\ getPetTypeLabel (get "petType" p) (get "type" p) = "Dog".
Proof.
  eexists. split; [reflexivity|].
  exact (loaded_card_labels "dry" rawAdultMini _ eq_refl eq_refl).
Defined.

(** X16.  A product loaded from a raw record whose name is a string or
    absent, whose two flags are booleans or absent and whose special cares
    are items never makes the predicate throw; its pet-type criterion
    compares the selected pet type with the raw [type], and the product is
    refused whenever a pet type is selected that is not its raw [type]. *)
Theorem loaded_product_matches
  (foodType : string) (o : obj) (p : Product) (F : FilterState) :
  toProduct foodType (VObj o) = OK p ->
  opt_string (get "name" o) = true ->
  opt_boolean (get "forPregnant" o) = true ->
  opt_boolean (get "forLactating" o) = true ->
  is_specialcares (get "specialcares" o) = true ->
  (exists b, matches p F = OK b)
  /\ (nonempty (petType F) = true ->
      passes ByPetType p F = strict_eq_str (get "type" o) (petType F))
  /\ (nonempty (petType F) = true ->
      strict_eq_str (get "type" o) (petType F) = false ->
      matches p F = OK false).
Proof.
  intros H Hn Hp Hl Hs.
  destruct (toProduct_untouched foodType o p H) as [K [Pt [Sc _]]].
  destruct (toProduct_obj foodType o p H) as [s [_ E]].
  assert (Nm : get "name" p = js_or (get "name" o) (VStr "Unknown Product"))
    by (rewrite E; read_field; reflexivity).
  assert (M : matches p F = OK (all_pass p F)).
  { apply matches_all_pass.
    + rewrite Nm. unfold js_or.
      destruct (get "name" o); try discriminate; simpl; [reflexivity|].
      now destruct (nonempty s0).
    + rewrite K by (unfold written_keys; simpl; intuition discriminate). exact Hp.
    + rewrite K by (unfold written_keys; simpl; intuition discriminate). exact Hl.
    + now rewrite Sc. }
  assert (Pet : nonempty (petType F) = true ->
                passes ByPetType p F = strict_eq_str (get "type" o) (petType F)).
  { intros N. cbn [passes]. rewrite Pt. unfold js_or.
    destruct (truthy (get "type" o)) eqn:T; [reflexivity|].
    assert (Emp : ("" =? petType F) = false)
      by (destruct (petType F); [discriminate N|reflexivity]).
    destruct (get "type" o) as [| | | | t | |]; cbn [strict_eq_str];
      try exact Emp; try discriminate T.
    destruct t; [reflexivity|discriminate T]. }
  split; [|split].
  - rewrite M. eexists. reflexivity.
  - exact Pet.
  - intros N D. rewrite M. f_equal.
    destruct (all_pass p F) eqn:A; [|reflexivity].
    rewrite all_pass_true in A. specialize (A ByPetType N).
    rewrite (Pet N), D in A. discriminate.
Qed.

Lemma loaded_product_matches_witness :
  exists p,
    toProduct "dry" (VObj rawSeniorCat) = OK p
    /\ matches p wantsPregnant = OK false.
Proof.
  eexists. split; [reflexivity|].
  exact (proj2 (proj2 (loaded_product_matches "dry" rawSeniorCat _ wantsPregnant
                         eq_refl eq_refl eq_refl eq_refl eq_refl))
           eq_refl eq_refl).
Defined.

Lemma mapR_length {A B : Type} (f : A -> result B) (xs : list A) (ys : list B) :
  mapR f xs = OK ys -> List.length ys = List.length xs.
Proof.
  revert ys. induction xs as [|x xs IH]; simpl; intros ys H.
  - injection H as <-. reflexivity.
  - destruct (f x); cbn [rbind] in H; [|discriminate].
    destruct (mapR f xs) as [zs|]; cbn [rbind] in H; [|discriminate].
    injection H as <-. simpl. now rewrite (IH zs eq_refl).
Qed.

Lemma mapR_throws {A B : Type} (f : A -> result B) (xs : list A) (x : A) (e : error) :
  In x xs -> f x = Throw e -> exists e', mapR f xs = Throw e'.
Proof.
  intros I H. induction xs as [|y xs IH]; [contradiction|].
  cbn [mapR]. destruct (f y) as [b|ey] eqn:Ey; cbn [rbind].
  - destruct I as [->|I]; [congruence|].
    destruct (IH I) as [e' E']. rewrite E'. exists e'. reflexivity.
  - exists ey. reflexivity.
Qed.

(** One run of the product loader for a food type. *)
Lemma fetchProducts_run
  (net : nat -> fetched) (foodType : string) (w : World AppState) :
  nonempty foodType = true ->
  fetchProducts net foodType w
  = (OK tt,
     mkWorld (mkAppState (filters (ui w))
                (match products_reply foodType (net (List.length (requests w))) with
                 | OK ps => ps
                 | Throw _ => []
                 end)
                (searchResults (ui w)) false true)
             (requests w ++ [products_request foodType]) (console w)).
Proof.
  intros N. unfold fetchProducts. rewrite N. cbn [negb].
  unfold bind, try_finally, try_catch, fetch, setIsLoading, setHasSearched,
    setProducts, modify, throw, lift, products_reply.
  cbn [ui requests console].
  destruct (net (List.length (requests w))) as [msg|status b]; cbn.
  - reflexivity.
  - destruct (ok_status status); cbn; [|reflexivity].
    destruct b as [msg|data]; cbn; [reflexivity|].
    destruct (Object_values
                (js_or (opt_prop (opt_prop data "result") "products") (VObj [])))
      as [raw|e]; cbn; [|reflexivity].
    destruct (mapR (toProduct foodType) raw) as [ps|e]; reflexivity.
Qed.

(** X17.  When the service answers with a products mapping, the product
    list becomes the products made from its values, one per record and in
    the order of the mapping; when the answer has no products mapping the
    list becomes empty, without any error. *)
Theorem fetchProducts_loads
  (net : nat -> fetched) (foodType : string) (w : World AppState)
  (status : Z) (data : value) :
  nonempty foodType = true ->
  net (List.length (requests w)) = Response status (Json data) ->
  ok_status status = true ->
  (forall o ps,
      opt_prop (opt_prop data "result") "products" = VObj o ->
      mapR (toProduct foodType) (values o) = OK ps ->
      products (ui (snd (fetchProducts net foodType w))) = ps
      /\ List.length ps = List.length o)
  /\ (truthy (opt_prop (opt_prop data "result") "products") = false ->
      products (ui (snd (fetchProducts net foodType w))) = []).
Proof.
  intros N E O. rewrite (fetchProducts_run net foodType w N), E.
  unfold products_reply. rewrite O. cbn [negb json rbind snd ui products].
  split.
  - intros o ps Eo M. rewrite Eo. cbn [js_or truthy Object_values rbind].
    rewrite M. split; [reflexivity|].
    rewrite (mapR_length _ _ _ M). unfold values. apply length_map.
  - intros T. unfold js_or. rewrite T. reflexivity.
Qed.

Lemma fetchProducts_loads_witness :
  List.length (products (ui (snd (fetchProducts net_catalog "dry" freshApp)))) = 2.
Proof.
  destruct (proj1 (fetchProducts_loads net_catalog "dry" freshApp 200%Z _
                     eq_refl eq_refl eq_refl)
              [("10", VObj rawAdultMini); ("11", VObj rawSeniorCat)] _
              eq_refl eq_refl) as [E L].
  rewrite E. exact L.
Defined.

(** X18.  One [null] among the raw records discards the whole answer:
    the product list becomes empty, not the list of the good records. *)
Theorem fetchProducts_null_record
  (net : nat -> fetched) (foodType : string) (w : World AppState)
  (status : Z) (data : value) (o : obj) (v : value) :
  nonempty foodType = true ->
  net (List.length (requests w)) = Response status (Json data) ->
  ok_status status = true ->
  opt_prop (opt_prop data "result") "products" = VObj o ->
  In v (values o) ->
  nullish v = true ->
  products (ui (snd (fetchProducts net foodType w))) = [].
Proof.
  intros N E O Eo I Nv. rewrite (fetchProducts_run net foodType w N), E.
  unfold products_reply. rewrite O. cbn [negb json rbind]. rewrite Eo.
  cbn [rbind snd ui products js_or truthy Object_values].
  assert (T : exists e, toProduct foodType v = Throw e).
  { unfold toProduct. destruct (prop_nullish v "id" Nv) as [e Ee].
    rewrite Ee. exists e. reflexivity. }
  destruct T as [e Te].
  destruct (mapR_throws (toProduct foodType) (values o) v e I Te) as [e' M].
  now rewrite M.
Qed.

Lemma fetchProducts_null_record_witness :
  products (ui (snd (fetchProducts net_null_record "dry" freshApp))) = [].
Proof.
  apply (fetchProducts_null_record net_null_record "dry" freshApp 200%Z _
           [("10", VObj rawAdultMini); ("11", VNull)] VNull
           eq_refl eq_refl eq_refl eq_refl).
  - right. left. reflexivity.
  - reflexivity.
Defined.

(** ** What the page shows *)

(** X19.  The results column always holds exactly one block: the
    loading card while loading, otherwise the invitation before any search
    and the results after one. *)
Theorem render_results_one_block (st : AppState) :
  (isLoading st = true -> render_results st = [LoadingCard])
  /\ (isLoading st = false -> hasSearched st = false ->
      render_results st = [ReadyCard (foodType (filters st))])
  /\ (isLoading st = false -> hasSearched st = true ->
      exists count noun body, render_results st = [ResultsBlock count noun body])
  /\ List.length (render_results st) = 1.
Proof.
  unfold render_results.
  destruct (isLoading st), (hasSearched st); cbn;
    repeat split; intros; try discriminate; try reflexivity;
    do 3 eexists; reflexivity.
Qed.

Lemma render_results_one_block_witness :
  render_results (ui freshApp) = [ReadyCard "dry"].
Proof.
  apply (proj1 (proj2 (render_results_one_block (ui freshApp)))); reflexivity.
Defined.

(** X20.  After a load that failed, once the filter effect has run, the
    page shows the results block with no result and the "No products
    found" card: not the loading card, not the invitation. *)
Theorem failed_load_shows_no_products
  (net : nat -> fetched) (foodType : string) (w : World AppState) :
  nonempty foodType = true ->
  fetch_failed (net (List.length (requests w))) = true ->
  fst ((fetchProducts net foodType ;;; filterEffect)%monad w) = OK tt
  /\ render_results (ui (snd ((fetchProducts net foodType ;;; filterEffect)%monad w)))
     = [ResultsBlock 0 "results" NoProductsFound].
Proof.
  intros N F. unfold bind. rewrite (fetchProducts_run net foodType w N).
  assert (R : exists e, products_reply foodType (net (List.length (requests w)))
                        = Throw e).
  { unfold products_reply, fetch_failed in *.
    destruct (net (List.length (requests w))) as [msg|status b].
    - eexists. reflexivity.
    - destruct (ok_status status); cbn [negb orb] in *.
      + destruct b; [|discriminate]. eexists. reflexivity.
      + eexists. reflexivity. }
  destruct R as [e R]. rewrite R. split; reflexivity.
Qed.

Lemma failed_load_shows_no_products_witness :
  render_results
    (ui (snd ((fetchProducts net_unavailable "wet" ;;; filterEffect)%monad freshApp)))
  = [ResultsBlock 0 "results" NoProductsFound].
Proof.
  apply (failed_load_shows_no_products net_unavailable "wet" freshApp);
    reflexivity.
Defined.

(** X21.  Reset puts the initial filters back and takes the page to the
    invitation, without a request and without dropping what was loaded:
    the products and the last search results stay in the state. *)
Theorem resetFilters_keeps_products (w : World AppState) :
  fst (resetFilters w) = OK tt
  /\ filters (ui (snd (resetFilters w))) = initialFilters
  /\ products (ui (snd (resetFilters w))) = products (ui w)
  /\ searchResults (ui (snd (resetFilters w))) = searchResults (ui w)
  /\ requests (snd (resetFilters w)) = requests w
  /\ (isLoading (ui w) = false ->
      render_results (ui (snd (resetFilters w))) = [ReadyCard "dry"]).
Proof.
  unfold resetFilters, bind, setFilters, setHasSearched, modify, ret. cbn.
  repeat split. intros L. unfold render_results. cbn. rewrite L. reflexivity.
Qed.

Lemma resetFilters_keeps_products_witness :
  render_results (ui (snd (resetFilters loadedApp))) = [ReadyCard "dry"].
Proof.
  apply (resetFilters_keeps_products loadedApp). reflexivity.
Defined.

(** X22.  Submitting the form stores the submitted filters and marks the
    page as searched exactly when some filter is set; with a food type
    chosen that is always the case, and the page then shows the results
    block as soon as it is not loading. *)
Theorem handleFilters_marks_searched (newFilters : FilterState) (w : World AppState) :
  filters (ui (snd (handleFilters newFilters w))) = newFilters
  /\ hasSearched (ui (snd (handleFilters newFilters w))) = any_filter newFilters
  /\ products (ui (snd (handleFilters newFilters w))) = products (ui w)
  /\ (nonempty (foodType newFilters) = true ->
      isLoading (ui w) = false ->
      exists count noun body,
        render_results (ui (snd (handleFilters newFilters w)))
        = [ResultsBlock count noun body]).
Proof.
  unfold handleFilters, bind, setFilters, setHasSearched, modify. cbn.
  repeat split. intros N L. unfold render_results, any_filter. cbn.
  rewrite L, N. cbn. do 3 eexists. reflexivity.
Qed.

Lemma handleFilters_marks_searched_witness :
  exists count noun body,
    render_results (ui (snd (handleFilters wantsPregnant freshApp)))
    = [ResultsBlock count noun body].
Proof.
  apply (handleFilters_marks_searched wantsPregnant freshApp); reflexivity.
Defined.

(** ** Special-care option loader *)

Lemma mapR_toOption (items : list value) :
  forallb (fun v => negb (nullish v)) items = true ->
  mapR toOption items = OK (map option_of items).
Proof.
  induction items as [|item items IH]; cbn [mapR map forallb]; intros H;
    [reflexivity|].
  apply andb_prop in H. destruct H as [Hi Hs].
  apply negb_true_iff in Hi. rewrite (IH Hs). unfold toOption.
  rewrite !(prop_opt_prop item _ Hi). reflexivity.
Qed.

Lemma option_lines (options : list value) :
  flat_map (fun l => match l with OptionLine o => [o] | _ => [] end)
           (map OptionLine options) = options.
Proof.
  induction options as [|o options IH]; simpl; [reflexivity|]. now rewrite IH.
Qed.

(** X23.  A successful load replaces the options wholesale by one
    {id, name} pair per raw record, in the order of the list and with the
    record's [specialcare_id] and [specialcare_name]; it clears the error
    message, and the panel shows exactly these options. *)
Theorem loadOptions_success
  (net : nat -> fetched) (petType : string) (w : World PanelState)
  (status : Z) (data : value) (items : list value) :
  nonempty petType = true ->
  net (List.length (requests w)) = Response status (Json data) ->
  ok_status status = true ->
  nested_list data = VArr items ->
  forallb (fun v => negb (nullish v)) items = true ->
  specialCareOptions (ui (snd (loadOptions net petType w))) = map option_of items
  /\ errorSpecialCare (ui (snd (loadOptions net petType w))) = None
  /\ rendered_options (ui (snd (loadOptions net petType w))) = map option_of items.
Proof.
  intros N E O L T. rewrite (loadOptions_run net petType w N), E.
  unfold specialCare_reply. rewrite O. cbn [negb json rbind]. rewrite L.
  cbn [rbind]. rewrite (mapR_toOption items T). cbn [snd ui specialCareOptions errorSpecialCare].
  repeat split.
  unfold rendered_options, render_specialCare, has_error.
  cbn [isLoadingSpecialCare errorSpecialCare specialCareOptions negb andb app].
  match goal with
  | |- context [if ?b then [NoneFoundLine] else []] => destruct b
  end; cbn [app flat_map]; apply option_lines.
Qed.

Lemma loadOptions_success_witness :
  specialCareOptions (ui (snd (loadOptions net_options "cat" dogPanel)))
  = [VObj [("id", VStr "4"); ("name", VStr "Renal")];
     VObj [("id", VStr "6"); ("name", VStr "Obesity")]].
Proof.
  apply (loadOptions_success net_options "cat" dogPanel 200%Z _
           [rawOption "4" "Renal"; rawOption "6" "Obesity"]
           eq_refl eq_refl eq_refl eq_refl eq_refl).
Defined.

(** X24.  One [null] among the raw records turns the whole load into a
    failure: a message is stored and the options stay what they were,
    the good records are not taken. *)
Theorem loadOptions_null_record
  (net : nat -> fetched) (petType : string) (w : World PanelState)
  (status : Z) (data : value) (items : list value) (v : value) :
  nonempty petType = true ->
  net (List.length (requests w)) = Response status (Json data) ->
  ok_status status = true ->
  nested_list data = VArr items ->
  In v items ->
  nullish v = true ->
  (exists e, errorSpecialCare (ui (snd (loadOptions net petType w)))
             = Some (error_text e))
  /\ specialCareOptions (ui (snd (loadOptions net petType w)))
     = specialCareOptions (ui w).
Proof.
  intros N E O L I Nv. rewrite (loadOptions_run net petType w N), E.
  unfold specialCare_reply. rewrite O. cbn [negb json rbind]. rewrite L.
  assert (T : exists e, toOption v = Throw e).
  { unfold toOption. destruct (prop_nullish v "specialcare_id" Nv) as [e Ee].
    rewrite Ee. exists e. reflexivity. }
  destruct T as [e Te].
  destruct (mapR_throws toOption items v e I Te) as [e' M]. cbn [rbind].
  rewrite M.
  split; [exists e'|]; reflexivity.
Qed.

Lemma loadOptions_null_record_witness :
  specialCareOptions (ui (snd (loadOptions net_null_option "cat" dogPanel)))
  = [dogOption].
Proof.
  apply (loadOptions_null_record net_null_option "cat" dogPanel 200%Z _
           [rawOption "4" "Renal"; VNull] VNull
           eq_refl eq_refl eq_refl eq_refl).
  - right. left. reflexivity.
  - reflexivity.
Defined.

(** X25.  The message shown after a failed load: the text of the
    rejection for a transport failure, "Failed to load options" if that
    text is empty; for a non-success status the [message] of the JSON body
    when it is a non-empty string, "API request failed" when the body is
    not JSON, and "Request failed with status N" when the body has no
    message. *)
Theorem loadOptions_message
  (net : nat -> fetched) (petType : string) (w : World PanelState) :
  nonempty petType = true ->
  (forall msg,
      net (List.length (requests w)) = Rejected msg ->
      errorSpecialCare (ui (snd (loadOptions net petType w)))
      = Some (if nonempty msg then msg else "Failed to load options"))
  /\ (forall status msg,
        net (List.length (requests w)) = Response status (InvalidJson msg) ->
        ok_status status = false ->
        errorSpecialCare (ui (snd (loadOptions net petType w)))
        = Some "API request failed")
  /\ (forall status o m,
        net (List.length (requests w)) = Response status (Json (VObj o)) ->
        ok_status status = false ->
        get "message" o = VStr m ->
        m <> "" ->
        errorSpecialCare (ui (snd (loadOptions net petType w))) = Some m)
  /\ (forall status o,
        net (List.length (requests w)) = Response status (Json (VObj o)) ->
        ok_status status = false ->
        truthy (get "message" o) = false ->
        errorSpecialCare (ui (snd (loadOptions net petType w)))
        = Some ("Request failed with status " ++ NumberToString status)%string).
Proof.
  intros N. rewrite (loadOptions_run net petType w N).
  split; [|split; [|split]].
  - intros msg E. rewrite E. reflexivity.
  - intros status msg E O. rewrite E. unfold specialCare_reply. rewrite O.
    reflexivity.
  - intros status o m E O Em Ne. rewrite E. unfold specialCare_reply. rewrite O.
    cbn [negb json rbind prop]. rewrite Em.
    apply String.eqb_neq in Ne.
    unfold js_or. cbn [truthy]. unfold nonempty at 1. rewrite Ne.
    cbn [negb ToString rbind snd ui errorSpecialCare].
    unfold error_text. cbn [message]. unfold nonempty. now rewrite Ne.
  - intros status o E O T. rewrite E. unfold specialCare_reply. rewrite O.
    cbn [negb json rbind prop]. unfold js_or. rewrite T.
    cbn [ToString rbind snd ui errorSpecialCare]. reflexivity.
Qed.

Lemma loadOptions_message_witness :
  errorSpecialCare (ui (snd (loadOptions net_forbidden "dog" freshPanel)))
  = Some "Forbidden"
  /\ errorSpecialCare (ui (snd (loadOptions net_unavailable "dog" freshPanel)))
     = Some "API request failed".
Proof.
  split.
  - apply (proj1 (proj2 (proj2 (loadOptions_message net_forbidden "dog" freshPanel
                                  eq_refl)))
             403%Z [("message", VStr "Forbidden")] "Forbidden");
      [reflexivity|reflexivity|reflexivity|discriminate].
  - apply (proj1 (proj2 (loadOptions_message net_unavailable "dog" freshPanel
                           eq_refl))
             503%Z "Unexpected token"); reflexivity.
Defined.

(** X26.  Without a pet type neither the fetch function nor the effect
    talks to the service: the function returns the empty list, the effect
    empties the options; an error message left by an earlier failure is
    not cleared and stays on the panel. *)
Theorem specialCare_without_petType (net : nat -> fetched) (w : World PanelState) :
  fetchSpecialCareOptionsApi net "" w = (OK [], w)
  /\ (petType (internalFilters (ui w)) = "" ->
      fst (specialCareEffect net w) = OK tt
      /\ requests (snd (specialCareEffect net w)) = requests w
      /\ specialCareOptions (ui (snd (specialCareEffect net w))) = []
      /\ errorSpecialCare (ui (snd (specialCareEffect net w)))
         = errorSpecialCare (ui w)
      /\ (forall msg, errorSpecialCare (ui w) = Some msg -> msg <> "" ->
                      In (ErrorLine msg)
                         (render_specialCare (ui (snd (specialCareEffect net w)))))).
Proof.
  split; [reflexivity|].
  intros E. rewrite (specialCareEffect_no_petType net w E).
  cbn [fst snd ui requests specialCareOptions errorSpecialCare].
  repeat split.
  intros msg Em Ne. unfold render_specialCare.
  cbn [errorSpecialCare isLoadingSpecialCare]. rewrite Em.
  apply String.eqb_neq in Ne. unfold nonempty at 1. rewrite Ne. cbn [negb].
  apply in_or_app. right. left. reflexivity.
Qed.

Lemma specialCare_without_petType_witness :
  In (ErrorLine "Forbidden")
     (render_specialCare (ui (snd (specialCareEffect net_down erroredPanel)))).
Proof.
  destruct (proj2 (specialCare_without_petType net_down erroredPanel) eq_refl)
    as [_ [_ [_ [_ R]]]].
  apply (R "Forbidden"); [reflexivity|discriminate].
Defined.

(** ** Product card *)

Lemma is_Product_card_fields (P : Product) :
  is_Product P = true ->
  opt_string (get "lifeStage" P) = true
  /\ is_specialcares (get "specialcares" P) = true.
Proof.
  unfold is_Product. rewrite !andb_true_iff. tauto.
Qed.

Lemma mapR_care_names (l : list value) :
  forallb is_SpecialCareItem l = true ->
  mapR (fun care => _ <- prop care "id" ;; prop care "name")%result l
  = OK (map (fun care => opt_prop care "name") l).
Proof.
  induction l as [|x l IH]; cbn [mapR map forallb]; intros H; [reflexivity|].
  apply andb_prop in H. destruct H as [Hx Hl]. rewrite (IH Hl).
  destruct x; try discriminate. reflexivity.
Qed.

(** X27.  The card of a product of the declared type always renders.
    It carries at most three benefit badges and one badge per normalised
    special care, with that care's name; the life-stage badge is left out
    exactly when the life stage is absent, empty or "-". *)
Theorem ProductCard_renders (P : Product) :
  is_Product P = true ->
  exists c,
    ProductCard P = OK c
    /\ List.length (card_benefits c) <= 3
    /\ card_cares c
       = map (fun care => opt_prop care "name")
             (getNormalizedSpecialCares (get "specialcares" P))
    /\ (card_lifeStage c = None <->
        get "lifeStage" P = VUndefined \/ get "lifeStage" P = VStr ""
        \/ get "lifeStage" P = VStr "-")
    /\ card_image c = render_image P.
Proof.
  intros T. destruct (is_Product_card_fields P T) as [Hl Hs].
  unfold ProductCard.
  rewrite (mapR_care_names _ (normalized_typed _ Hs)).
  destruct (get "lifeStage" P) as [| | | | s | |] eqn:El; try discriminate.
  - cbn [getLifeStageLabel truthy negb rbind]. eexists. split; [reflexivity|].
    cbn [card_benefits card_cares card_lifeStage card_image String.eqb].
    split; [apply getNormalizedBenefits_length|].
    split; [reflexivity|]. split; [|reflexivity].
    split; [intros _; now left|reflexivity].
  - destruct (getLifeStageLabel_string s) as [label E]. rewrite E.
    cbn [rbind]. eexists. split; [reflexivity|].
    cbn [card_benefits card_cares card_lifeStage card_image].
    split; [apply getNormalizedBenefits_length|].
    split; [reflexivity|]. split; [|reflexivity].
    pose proof (getLifeStageLabel_dash s) as D. rewrite E in D.
    destruct (String.eqb_spec label "-") as [->|Ne].
    + split; [intros _|reflexivity]. right.
      destruct (proj1 D eq_refl) as [->| ->]; [now left|now right].
    + split; [discriminate|]. intros [H|[H|H]]; try discriminate;
        injection H as ->; exfalso; apply Ne;
        assert (G : OK label = OK "-") by (apply D; tauto); congruence.
Qed.

Lemma ProductCard_renders_witness :
  exists c, ProductCard adultMini = OK c /\ card_lifeStage c = Some "Adult".
Proof.
  destruct (ProductCard_renders adultMini eq_refl) as [c [E _]].
  exists c. split; [exact E|].
  cbv in E. injection E as <-. reflexivity.
Defined.

(** X28.  A loaded product whose raw [lifeStages] mapping starts with a
    value that is neither empty nor a string (an object, a number) cannot
    be rendered: its card throws. *)
Theorem loaded_card_throws
  (foodType : string) (o : obj) (p : Product) (k : string) (v : value) (rest : obj) :
  toProduct foodType (VObj o) = OK p ->
  get "lifeStages" o = VObj ((k, v) :: rest) ->
  truthy v = true ->
  is_string v = false ->
  exists e, ProductCard p = Throw e.
Proof.
  intros H L T S. destruct (toProduct_untouched foodType o p H) as [_ [_ [_ E]]].
  unfold ProductCard. rewrite E, L. unfold first_stage.
  cbn [truthy Object_values values map snd nth].
  assert (C : js_coalesce v (VStr "") = v)
    by (unfold js_coalesce; destruct v; try reflexivity; discriminate).
  rewrite C. unfold getLifeStageLabel. rewrite T. cbn [negb].
  destruct v; try discriminate; eexists; reflexivity.
Qed.

Lemma loaded_card_throws_witness :
  exists p e, toProduct "wet" (VObj rawOddStage) = OK p /\ ProductCard p = Throw e.
Proof.
  eexists.
  destruct (loaded_card_throws "wet" rawOddStage _ "2"
              (VObj [("code", VStr "kitten")]) [] eq_refl eq_refl eq_refl eq_refl)
    as [e E].
  exists e. split; [reflexivity|exact E].
Defined.

Lemma flag_is_true_iff (v : value) : flag_is_true v = true <-> v = VBool true.
Proof.
  destruct v as [| | [|] | | | |]; simpl; split; intros H;
    try discriminate; reflexivity.
Qed.

(** X29.  With the pregnancy filter on and no loaded product flagged
    for pregnancy, the filter effect leaves no result and the page, once
    searched and not loading, shows the "No products found" card. *)
Theorem pregnant_filter_without_flagged (w : World AppState) :
  forallb is_Product (products (ui w)) = true ->
  isPregnant (filters (ui w)) = true ->
  (forall P, In P (products (ui w)) -> get "forPregnant" P <> VBool true) ->
  isLoading (ui w) = false ->
  hasSearched (ui w) = true ->
  fst (filterEffect w) = OK tt
  /\ searchResults (ui (snd (filterEffect w))) = []
  /\ render_results (ui (snd (filterEffect w)))
     = [ResultsBlock 0 "results" NoProductsFound].
Proof.
  intros T Pr No L Hs.
  assert (E : filter (fun P => all_pass P (filters (ui w))) (products (ui w)) = []).
  { clear T. induction (products (ui w)) as [|P ps IH]; [reflexivity|].
    cbn [filter].
    assert (A : all_pass P (filters (ui w)) = false).
    { destruct (all_pass P (filters (ui w))) eqn:A; [|reflexivity].
      rewrite all_pass_true in A. specialize (A ByPregnant Pr).
      apply flag_is_true_iff in A. exfalso.
      apply (No P (or_introl eq_refl)). exact A. }
    rewrite A. apply IH. intros Q I. apply No. now right. }
  unfold filterEffect, bind, lift, setSearchResults, modify.
  rewrite (filterProducts_typed _ _ T), E.
  cbn [fst snd ui searchResults]. unfold render_results.
  cbn [isLoading hasSearched searchResults]. rewrite L, Hs. repeat split.
Qed.

Lemma pregnant_filter_without_flagged_witness :
  searchResults
    (ui (snd (filterEffect
                (mkWorld (mkAppState wantsPregnant [adultMini; seniorCat]
                                     [adultMini] false true) [] []))))
  = [].
Proof.
  apply (pregnant_filter_without_flagged
           (mkWorld (mkAppState wantsPregnant [adultMini; seniorCat]
                                [adultMini] false true) [] []));
    try reflexivity.
  intros P [<-|[<-|[]]]; discriminate.
Defined.
